(** * Task builder and task entity: a shallow embedding

    The development embeds the task domain of the repository:

    - [src/core/domain/task/types]            (enumerations, [TaskId], [Tag], [Task]),
    - [src/core/domain/task/builder/task.builder.ts] (class [TaskBuilder]),
    - the task entity module                  (class [TaskEntity], method [update]).

    JavaScript objects are shared by reference: the builder keeps one draft
    object in its private field [task], and [build] hands that very object
    out.  The embedding therefore has a heap of task objects addressed by
    locations, and every method is a computation over a [World] that may
    return, throw a [TaskValidationError], or get stuck on a location that
    holds no object (which no reference obtained from a constructor does).

    Two ambient capabilities are read by the code: the wall clock
    ([new Date()]) and the id generator ([crypto.randomUUID()]).  Both are
    oracles of the environment: the n-th reading of the clock is [clock n],
    the n-th generated id is [randomUUID n]; the world counts the readings
    made so far.

    Strings are JavaScript strings: finite sequences of UTF-16 code units.
    [Date] objects and tag arrays are treated as values (the code never
    mutates one in place). *)

From Stdlib Require Import ZArith NArith Ascii List Lia.
From stdpp Require Import base strings gmap list.

Set Default Proof Using "Type".
Local Open Scope Z_scope.

(** ** JavaScript strings *)

(** One UTF-16 code unit. *)
Abbreviation code_unit := N (only parsing).

(** A string value: its code units, in order.  [s.length] is [length s]. *)
Abbreviation jsstring := (list N) (only parsing).

(** The string value of an ASCII literal of the source. *)
Definition js (s : string) : jsstring :=
  map N_of_ascii (String.list_ascii_of_string s).

(** ECMAScript [WhiteSpace] and [LineTerminator] code points, the ones
    [String.prototype.trim] strips: TAB, LF, VT, FF, CR, SP, NBSP, the
    Unicode space separators, LS, PS and the byte order mark. *)
Definition isWhiteSpace (c : code_unit) : bool :=
  ((9 <=? c) && (c <=? 13) || (c =? 32) || (c =? 160) || (c =? 5760)
   || (8192 <=? c) && (c <=? 8202) || (c =? 8232) || (c =? 8233)
   || (c =? 8239) || (c =? 8287) || (c =? 12288) || (c =? 65279))%N.

Fixpoint trimStart (s : jsstring) : jsstring :=
  match s with
  | c :: s' => if isWhiteSpace c then trimStart s' else s
  | [] => []
  end.

Definition trimEnd (s : jsstring) : jsstring := rev (trimStart (rev s)).

(** [s.trim()] *)
Definition trim (s : jsstring) : jsstring := trimEnd (trimStart s).

(** Truthiness of a string value: [!s] is [negb (truthy s)]. *)
Definition truthy (s : jsstring) : bool :=
  match s with [] => false | _ :: _ => true end.

(** Truthiness of a possibly undefined string property. *)
Definition truthy_opt (o : option jsstring) : bool :=
  match o with Some s => truthy s | None => false end.

(** [a.includes(x)] on an array of strings (SameValueZero is equality of
    the code unit sequences). *)
Definition includes (a : list jsstring) (x : jsstring) : bool :=
  existsb (fun y => bool_decide (y = x)) a.

(** ** The data model (types module) *)

Inductive TaskPriority := LOW | MEDIUM | HIGH | URGENT.
Inductive TaskStatus := TODO | IN_PROGRESS | REVIEW | DONE.

(** The enumerations are string enums: a member is, at run time, the
    string on the right of its declaration, and a value typed
    [TaskPriority] by a cast (as the create form does with the value of
    its select element) is an arbitrary string.  Fields of these types
    hold run-time values. *)
Definition TaskPriority_value (p : TaskPriority) : jsstring :=
  match p with
  | LOW => js "LOW" | MEDIUM => js "MEDIUM"
  | HIGH => js "HIGH" | URGENT => js "URGENT"
  end.

Definition TaskStatus_value (s : TaskStatus) : jsstring :=
  match s with
  | TODO => js "TODO" | IN_PROGRESS => js "IN_PROGRESS"
  | REVIEW => js "REVIEW" | DONE => js "DONE"
  end.

(** [Object.values(TaskPriority)], [Object.values(TaskStatus)] *)
Definition Object_values_TaskPriority : list jsstring :=
  map TaskPriority_value [LOW; MEDIUM; HIGH; URGENT].

Definition Object_values_TaskStatus : list jsstring :=
  map TaskStatus_value [TODO; IN_PROGRESS; REVIEW; DONE].

(** A [Date] is its time value in milliseconds; [None] is the time value
    NaN of an invalid date. *)
Abbreviation Date := (option Z) (only parsing).

Module TaskId.
Record t := mk { value : jsstring }.
End TaskId.

Module Tag.
Record t := mk { id : jsstring; name : jsstring; color : option jsstring }.
End Tag.

(** The task object, as it is at run time.  Interface [Task] declares
  six of its properties required, but the builder's draft is a
  [Partial<Task>], [build] returns the draft under a cast, and
  [Object.assign] in [update] copies whatever keys its argument has,
  with the value undefined where the argument has it: every one of the
  eleven properties is either missing or undefined ([None]) or holds a
  value of the type the interface declares for it. *)
Module Task.
Record t := mk {
  id : option TaskId.t;
  title : option jsstring;
  description : option jsstring;
  status : option jsstring;
  priority : option jsstring;
  dueDate : option Date;
  tags : option (list Tag.t);
  createdAt : option Date;
  updatedAt : option Date;
  assigneeId : option jsstring;
  creatorId : option jsstring
}.

(** Property assignments [o.p = v]. *)
Definition set_id v o :=
  mk v (title o) (description o) (status o) (priority o) (dueDate o)
     (tags o) (createdAt o) (updatedAt o) (assigneeId o) (creatorId o).
Definition set_title v o :=
  mk (id o) v (description o) (status o) (priority o) (dueDate o)
     (tags o) (createdAt o) (updatedAt o) (assigneeId o) (creatorId o).
Definition set_description v o :=
  mk (id o) (title o) v (status o) (priority o) (dueDate o)
     (tags o) (createdAt o) (updatedAt o) (assigneeId o) (creatorId o).
Definition set_status v o :=
  mk (id o) (title o) (description o) v (priority o) (dueDate o)
     (tags o) (createdAt o) (updatedAt o) (assigneeId o) (creatorId o).
Definition set_priority v o :=
  mk (id o) (title o) (description o) (status o) v (dueDate o)
     (tags o) (createdAt o) (updatedAt o) (assigneeId o) (creatorId o).
Definition set_dueDate v o :=
  mk (id o) (title o) (description o) (status o) (priority o) v
     (tags o) (createdAt o) (updatedAt o) (assigneeId o) (creatorId o).
Definition set_tags v o :=
  mk (id o) (title o) (description o) (status o) (priority o) (dueDate o)
     v (createdAt o) (updatedAt o) (assigneeId o) (creatorId o).
Definition set_createdAt v o :=
  mk (id o) (title o) (description o) (status o) (priority o) (dueDate o)
     (tags o) v (updatedAt o) (assigneeId o) (creatorId o).
Definition set_updatedAt v o :=
  mk (id o) (title o) (description o) (status o) (priority o) (dueDate o)
     (tags o) (createdAt o) v (assigneeId o) (creatorId o).
Definition set_assigneeId v o :=
  mk (id o) (title o) (description o) (status o) (priority o) (dueDate o)
     (tags o) (createdAt o) (updatedAt o) v (creatorId o).
Definition set_creatorId v o :=
  mk (id o) (title o) (description o) (status o) (priority o) (dueDate o)
     (tags o) (createdAt o) (updatedAt o) (assigneeId o) v.
End Task.

(** ** Worlds and computations *)

(** A reference to a task object. *)
Abbreviation loc := nat (only parsing).

Record World := mkWorld {
  heap : gmap nat Task.t;   (* the task objects alive *)
  ticks : nat;              (* clock readings made so far *)
  uuids : nat               (* ids generated so far *)
}.

(** The single error class of the domain (task.errors). *)
Inductive Error := TaskValidationError (message : string).

Inductive Result (A : Type) :=
| Returns (a : A) (w : World)
| Throws (e : Error) (w : World)
| Stuck.
Arguments Returns {A} a w.
Arguments Throws {A} e w.
Arguments Stuck {A}.

Definition M (A : Type) := World -> Result A.

Definition ret {A} (a : A) : M A := fun w => Returns a w.

Definition bind {A B} (m : M A) (k : A -> M B) : M B :=
  fun w => match m w with
           | Returns a w' => k a w'
           | Throws e w' => Throws e w'
           | Stuck => Stuck
           end.

Definition throw {A} (e : Error) : M A := fun w => Throws e w.

Notation "x <- m ;; k" := (bind m (fun x => k))
  (at level 100, m at next level, right associativity).
Notation "m ;;; k" := (bind m (fun _ => k))
  (at level 100, right associativity).

(** [try { m } catch (e) { }]: a thrown error is swallowed, the effects
    made before the throw stay. *)
Definition try_catch {A} (m : M A) : M unit :=
  fun w => match m w with
           | Returns _ w' => Returns tt w'
           | Throws _ w' => Returns tt w'
           | Stuck => Stuck
           end.

(** Reading an object through a reference. *)
Definition deref (l : loc) : M Task.t :=
  fun w => match heap w !! l with
           | Some o => Returns o w
           | None => Stuck
           end.

(** A property assignment through a reference. *)
Definition assign (l : loc) (f : Task.t -> Task.t) : M unit :=
  fun w => match heap w !! l with
           | Some o => Returns tt (mkWorld (<[l := f o]> (heap w)) (ticks w) (uuids w))
           | None => Stuck
           end.

(** A new object, at a reference no live object has. *)
Definition alloc (o : Task.t) : M loc :=
  fun w => let l := fresh (dom (heap w)) in
           Returns l (mkWorld (<[l := o]> (heap w)) (ticks w) (uuids w)).

(** ** Environments and worlds of the examples *)

(** A clock whose readings all fall in one millisecond. *)
Definition frozen_clock (n : nat) : Z := 1700000000000.

(** A clock that is set back one millisecond before each reading. *)
Definition receding_clock (n : nat) : Z := 1700000000000 - Z.of_nat n.

(** A clock that advances one millisecond from each reading to the next. *)
Definition ticking_clock (n : nat) : Z := 1700000000000 + Z.of_nat n.

Definition uuid_oracle (n : nat) : jsstring :=
  js "task-" ++ [(48 + N.of_nat n)%N].

Definition empty_world : World := mkWorld ∅ 0 0.

Definition example_task : Task.t :=
  Task.mk (Some (TaskId.mk (js "task-0"))) (Some (js "Ship release")) None
          (Some (js "TODO")) (Some (js "HIGH")) None None
          (Some (Some 1700000000000)) (Some (Some 1700000000000)) None
          (Some (js "u1")).

(** A world with one task object, at reference 0. *)
Definition example_world : World := mkWorld {[ 0%nat := example_task ]} 2 1.

(** ** The program *)

Section Program.

(** The environment: what the n-th [new Date()] reads (milliseconds), and
    what the n-th [crypto.randomUUID()] yields. *)
Variable clock : nat -> Z.
Variable randomUUID : nat -> jsstring.

(** [new Date()] *)
Definition new_Date : M Date :=
  fun w => Returns (Some (clock (ticks w)))
                   (mkWorld (heap w) (S (ticks w)) (uuids w)).

(** [crypto.randomUUID()] *)
Definition crypto_randomUUID : M jsstring :=
  fun w => Returns (randomUUID (uuids w))
                   (mkWorld (heap w) (ticks w) (S (uuids w))).

(** *** class TaskBuilder *)

(** The builder object: its one private field, a reference to the draft. *)
Record TaskBuilder := mkTaskBuilder { task : loc }.

(** constructor(creatorId): the properties of the object literal are
    evaluated in the order they are written. *)
Definition TaskBuilder_new (creatorId : jsstring) : M TaskBuilder :=
  u <- crypto_randomUUID ;;
  c <- new_Date ;;
  m <- new_Date ;;
  l <- alloc (Task.mk (Some (TaskId.mk u)) None None
                      (Some (TaskStatus_value TODO))
                      (Some (TaskPriority_value MEDIUM))
                      None None (Some c) (Some m) None (Some creatorId)) ;;
  ret (mkTaskBuilder l).

Definition validateRequiredFields (this : TaskBuilder) : M unit :=
  o <- deref (task this) ;;
  if negb (truthy_opt (Task.title o)) then
    throw (TaskValidationError "Title is required")
  else if negb (truthy_opt (Task.creatorId o)) then
    throw (TaskValidationError "Creator ID is required")
  else ret tt.

Definition validateTitle (title : jsstring) : M unit :=
  if negb (truthy (trim title)) then
    throw (TaskValidationError "Title cannot be empty")
  else if (100 <? length title)%nat then
    throw (TaskValidationError "Title must not exceed 100 characters")
  else ret tt.

Definition validatePriority (priority : jsstring) : M unit :=
  if negb (includes Object_values_TaskPriority priority) then
    throw (TaskValidationError "Invalid priority value")
  else ret tt.

(** [date instanceof Date] holds of every value of type [Date]; the
    clock is read only once the time value is known to be a number. *)
Definition validateDueDate (date : Date) : M unit :=
  match date with
  | None => throw (TaskValidationError "Invalid due date")
  | Some t =>
      now <- new_Date ;;
      match now with
      | Some n =>
          if t <? n then
            throw (TaskValidationError "Due date cannot be in the past")
          else ret tt
      | None => ret tt
      end
  end.

(** The callback of [tags.forEach]: the first tag that fails a check
    throws and ends the iteration. *)
Definition validateTag (tag : Tag.t) : M unit :=
  if negb (truthy (Tag.id tag)) || negb (truthy (Tag.name tag)) then
    throw (TaskValidationError "Each tag must have an id and name")
  else if (50 <? length (Tag.name tag))%nat then
    throw (TaskValidationError "Tag name must not exceed 50 characters")
  else ret tt.

(** [Array.isArray(tags)] holds of every value of type [Tag[]]. *)
Fixpoint validateTags (tags : list Tag.t) : M unit :=
  match tags with
  | [] => ret tt
  | tag :: rest => validateTag tag ;;; validateTags rest
  end.

Definition withTitle (this : TaskBuilder) (title : jsstring) : M TaskBuilder :=
  validateTitle title ;;;
  assign (task this) (Task.set_title (Some title)) ;;;
  ret this.

Definition withDescription (this : TaskBuilder) (description : jsstring)
  : M TaskBuilder :=
  if (1000 <? length description)%nat then
    throw (TaskValidationError "Description must not exceed 1000 characters")
  else
    assign (task this) (Task.set_description (Some description)) ;;;
    ret this.

Definition withPriority (this : TaskBuilder) (priority : jsstring)
  : M TaskBuilder :=
  validatePriority priority ;;;
  assign (task this) (Task.set_priority (Some priority)) ;;;
  ret this.

Definition withDueDate (this : TaskBuilder) (date : Date) : M TaskBuilder :=
  validateDueDate date ;;;
  assign (task this) (Task.set_dueDate (Some date)) ;;;
  ret this.

Definition withAssignee (this : TaskBuilder) (assigneeId : jsstring)
  : M TaskBuilder :=
  if negb (truthy (trim assigneeId)) then
    throw (TaskValidationError "Assignee ID cannot be empty")
  else
    assign (task this) (Task.set_assigneeId (Some assigneeId)) ;;;
    ret this.

Definition withTags (this : TaskBuilder) (tags : list Tag.t) : M TaskBuilder :=
  validateTags tags ;;;
  assign (task this) (Task.set_tags (Some tags)) ;;;
  ret this.

(** [build()]: the value returned is [this.task], the draft itself. *)
Definition build (this : TaskBuilder) : M loc :=
  validateRequiredFields this ;;;
  ret (task this).

(** *** class TaskEntity *)

(** The argument of [update], of type
    [Partial<Omit<Task, 'id' | 'createdAt' | 'creatorId'>>].  The type
    declares eight keys, each optional, so that a key may be absent or
    there with the value undefined.  It does not exclude other keys: a
    value that is not an object literal may carry any, a [Task] passed as
    the argument carries [id], [createdAt] and [creatorId], and
    [Object.assign] copies them like the rest.  The record has the
    eleven keys that name a property of the task; [None] is a key that
    is not there, [Some None] a key that is there with the value
    undefined.  Keys that name no property of [Task], and values of
    another type than the property's under the three undeclared keys,
    are left out. *)
Record Updates := mkUpdates {
  u_id : option (option TaskId.t);
  u_title : option (option jsstring);
  u_description : option (option jsstring);
  u_status : option (option jsstring);
  u_priority : option (option jsstring);
  u_dueDate : option (option Date);
  u_tags : option (option (list Tag.t));
  u_createdAt : option (option Date);
  u_updatedAt : option (option Date);
  u_assigneeId : option (option jsstring);
  u_creatorId : option (option jsstring)
}.

(** The object literal [{status: s}]. *)
Definition status_only (s : TaskStatus) : Updates :=
  mkUpdates None None None (Some (Some (TaskStatus_value s))) None None None
            None None None None.

(** The object literal [{title: value}]. *)
Definition title_only (value : option jsstring) : Updates :=
  mkUpdates None (Some value) None None None None None None None None None.

(** The object literal [{updatedAt: date}]. *)
Definition updatedAt_only (date : Date) : Updates :=
  mkUpdates None None None None None None None None (Some (Some date))
            None None.

(** A value, not a literal, that carries [createdAt] beside a status. *)
Definition status_and_createdAt (s : TaskStatus) (date : Date) : Updates :=
  mkUpdates None None None (Some (Some (TaskStatus_value s))) None None None
            (Some (Some date)) None None None.


(** constructor(task): a new object with the eleven properties copied. *)
Definition TaskEntity_new (t : loc) : M loc :=
  o <- deref t ;;
  alloc (Task.mk (Task.id o) (Task.title o) (Task.description o)
                 (Task.status o) (Task.priority o) (Task.dueDate o)
                 (Task.tags o) (Task.createdAt o) (Task.updatedAt o)
                 (Task.assigneeId o) (Task.creatorId o)).

(** One step of [Object.assign]: copy a key if it is there. *)
Definition copy_key {A} (k : option A) (set : A -> Task.t -> Task.t)
  (o : Task.t) : Task.t :=
  match k with Some v => set v o | None => o end.

(** [Object.assign(o, updates)]: the keys of [updates] are distinct, so
    the order in which they are copied does not show. *)
Definition Object_assign (updates : Updates) (o : Task.t) : Task.t :=
  copy_key (u_creatorId updates) Task.set_creatorId
  (copy_key (u_assigneeId updates) Task.set_assigneeId
  (copy_key (u_updatedAt updates) Task.set_updatedAt
  (copy_key (u_createdAt updates) Task.set_createdAt
  (copy_key (u_tags updates) Task.set_tags
  (copy_key (u_dueDate updates) Task.set_dueDate
  (copy_key (u_priority updates) Task.set_priority
  (copy_key (u_status updates) Task.set_status
  (copy_key (u_description updates) Task.set_description
  (copy_key (u_title updates) Task.set_title
  (copy_key (u_id updates) Task.set_id o)))))))))).

Definition update (this : loc) (updates : Updates) : M unit :=
  assign this (Object_assign updates) ;;;
  now <- new_Date ;;
  assign this (Task.set_updatedAt (Some now)).

(** *** Callers *)

(** One call of a [with*] method, with its argument. *)
Inductive WithCall :=
| WithTitle (title : jsstring)
| WithDescription (description : jsstring)
| WithPriority (priority : jsstring)
| WithDueDate (date : Date)
| WithAssignee (assigneeId : jsstring)
| WithTags (tags : list Tag.t).

Definition call (this : TaskBuilder) (c : WithCall) : M TaskBuilder :=
  match c with
  | WithTitle title => withTitle this title
  | WithDescription description => withDescription this description
  | WithPriority priority => withPriority this priority
  | WithDueDate date => withDueDate this date
  | WithAssignee assigneeId => withAssignee this assigneeId
  | WithTags tags => withTags this tags
  end.

(** The fluent chain [b.withA(..).withB(..)...]: each call is made on the
    builder the previous one returned, and the first throw ends it. *)
Fixpoint chain (this : TaskBuilder) (cs : list WithCall) : M TaskBuilder :=
  match cs with
  | [] => ret this
  | c :: cs' => b <- call this c ;; chain b cs'
  end.

(** The same calls made one statement at a time by a caller that catches
    each validation error and goes on. *)
Fixpoint attempts (this : TaskBuilder) (cs : list WithCall) : M unit :=
  match cs with
  | [] => ret tt
  | c :: cs' => try_catch (call this c) ;;; attempts this cs'
  end.

(** A sequence of [update] calls on one entity. *)
Fixpoint update_all (this : loc) (us : list Updates) : M unit :=
  match us with
  | [] => ret tt
  | u :: us' => update this u ;;; update_all this us'
  end.

(** A caller that makes a builder, drives it, builds, wraps the task in
    an entity and updates that; it keeps the task and the entity. *)
Definition build_entity (creatorId : jsstring) (cs : list WithCall)
  (us : list Updates) : M (loc * loc) :=
  b <- TaskBuilder_new creatorId ;;
  attempts b cs ;;;
  t <- build b ;;
  e <- TaskEntity_new t ;;
  update_all e us ;;;
  ret (t, e).

(** A call of the public interface of the two classes.  References are
    not typed here: an [Update] may name any task object, a draft
    included, which is more than the classes allow, [update] being a
    method of entities; what holds of every program below holds of the
    programs the classes allow. *)
Inductive Op :=
| New (creatorId : jsstring)
| Call (this : TaskBuilder) (c : WithCall)
| Build (this : TaskBuilder)
| NewEntity (t : loc)
| Update (this : loc) (updates : Updates).

Definition run_op (op : Op) : M unit :=
  match op with
  | New creatorId => TaskBuilder_new creatorId ;;; ret tt
  | Call this c => call this c ;;; ret tt
  | Build this => build this ;;; ret tt
  | NewEntity t => TaskEntity_new t ;;; ret tt
  | Update this updates => update this updates
  end.

(** A program over the interface: a sequence of calls, each one caught. *)
Fixpoint run_ops (ops : list Op) : M unit :=
  match ops with
  | [] => ret tt
  | op :: ops' => try_catch (run_op op) ;;; run_ops ops'
  end.

(** The world a computation leaves, when it returned or threw. *)
Definition after {A} (r : Result A) : option World :=
  match r with
  | Returns _ w => Some w
  | Throws _ w => Some w
  | Stuck => None
  end.

(** The program reaches the world from an empty heap. *)
Definition reaches (ops : list Op) (w : World) : Prop :=
  exists n k, after (run_ops ops (mkWorld ∅ n k)) = Some w.

(** The updates carry only keys their type declares: none of [id],
    [createdAt], [creatorId]. *)
Definition declared_keys_only (u : Updates) : Prop :=
  u_id u = None /\ u_createdAt u = None /\ u_creatorId u = None.

(** The call is no update that carries a [createdAt] key. *)
Definition no_createdAt_key (op : Op) : Prop :=
  match op with
  | Update _ updates => u_createdAt updates = None
  | _ => True
  end.

(** The call is no update of the object at [l] that carries one of the
    three undeclared keys. *)
Definition keeps_identity_of (l : loc) (op : Op) : Prop :=
  match op with
  | Update this updates => this <> l \/ declared_keys_only updates
  | _ => True
  end.

(** ** The vocabulary of the specification *)

(** The time value of a date property, when it holds a valid date. *)
Definition time_value (p : option Date) : option Z :=
  match p with Some (Some t) => Some t | _ => None end.

(** Ordering of two date properties, as [<=] and [<] order them: by time
    value, and false when one of the two is undefined or invalid. *)
Definition Date_le (a b : option Date) : Prop :=
  match time_value a, time_value b with
  | Some x, Some y => x <= y
  | _, _ => False
  end.

Definition Date_lt (a b : option Date) : Prop :=
  match time_value a, time_value b with
  | Some x, Some y => x < y
  | _, _ => False
  end.

(** A tag the data model accepts: non-empty id and name, name of at most
    50 characters. *)
Definition tag_ok (tag : Tag.t) : Prop :=
  Tag.id tag <> [] /\ Tag.name tag <> [] /\ (length (Tag.name tag) <= 50)%nat.

(** The argument of a [with*] call that the operation must reject, when
    the clock reads [now] at the call. *)
Definition invalid_argument (now : Z) (c : WithCall) : Prop :=
  match c with
  | WithTitle title => trim title = [] \/ (100 < length title)%nat
  | WithDescription description => (1000 < length description)%nat
  | WithPriority priority => ~ In priority Object_values_TaskPriority
  | WithDueDate date =>
      match date with Some t => t < now | None => True end
  | WithAssignee assigneeId => trim assigneeId = []
  | WithTags tags => Exists (fun tag => ~ tag_ok tag) tags
  end.

(** The property a [with*] method writes, and what it writes there. *)
Inductive Field :=
| F_title | F_description | F_priority | F_dueDate | F_assigneeId | F_tags.

Definition field_of (c : WithCall) : Field :=
  match c with
  | WithTitle _ => F_title
  | WithDescription _ => F_description
  | WithPriority _ => F_priority
  | WithDueDate _ => F_dueDate
  | WithAssignee _ => F_assigneeId
  | WithTags _ => F_tags
  end.

Definition store (c : WithCall) : Task.t -> Task.t :=
  match c with
  | WithTitle title => Task.set_title (Some title)
  | WithDescription description => Task.set_description (Some description)
  | WithPriority priority => Task.set_priority (Some priority)
  | WithDueDate date => Task.set_dueDate (Some date)
  | WithAssignee assigneeId => Task.set_assigneeId (Some assigneeId)
  | WithTags tags => Task.set_tags (Some tags)
  end.

(** The task shows the argument of the call, as it was given. *)
Definition reflects (o : Task.t) (c : WithCall) : Prop :=
  match c with
  | WithTitle title => Task.title o = Some title
  | WithDescription description => Task.description o = Some description
  | WithPriority priority => Task.priority o = Some priority
  | WithDueDate date => Task.dueDate o = Some date
  | WithAssignee assigneeId => Task.assigneeId o = Some assigneeId
  | WithTags tags => Task.tags o = Some tags
  end.

(** Clock readings a call with a valid argument makes. *)
Definition clock_reads (c : WithCall) : nat :=
  match c with WithDueDate _ => 1%nat | _ => 0%nat end.

(** All the arguments of a chain are valid, each at the clock reading
    its call makes; [n] readings were made before the chain. *)
Fixpoint valid_arguments (n : nat) (cs : list WithCall) : Prop :=
  match cs with
  | [] => True
  | c :: cs' =>
      ~ invalid_argument (clock n) c /\ valid_arguments (n + clock_reads c) cs'
  end.

(** The field constraints of the data model. *)
Definition title_ok (title : option jsstring) : Prop :=
  exists s, title = Some s /\ (1 <= length (trim s) <= 100)%nat.

Definition description_ok (description : option jsstring) : Prop :=
  forall s, description = Some s -> (length s <= 1000)%nat.

Definition tags_ok (tags : option (list Tag.t)) : Prop :=
  forall ts, tags = Some ts -> Forall tag_ok ts.

Definition assigneeId_ok (assigneeId : option jsstring) : Prop :=
  forall s, assigneeId = Some s -> trim s <> [].

(** The property holds a member of the enumeration. *)
Definition enum_ok (values : list jsstring) (v : option jsstring) : Prop :=
  exists s, v = Some s /\ In s values.

Definition field_constraints (o : Task.t) : Prop :=
  title_ok (Task.title o) /\
  description_ok (Task.description o) /\
  enum_ok Object_values_TaskStatus (Task.status o) /\
  enum_ok Object_values_TaskPriority (Task.priority o) /\
  tags_ok (Task.tags o) /\
  assigneeId_ok (Task.assigneeId o).

(** The constraints on a draft: those of a task, but for a title that may
    still be missing. *)
Definition draft_constraints (o : Task.t) : Prop :=
  (Task.title o = None \/ title_ok (Task.title o)) /\
  description_ok (Task.description o) /\
  enum_ok Object_values_TaskStatus (Task.status o) /\
  enum_ok Object_values_TaskPriority (Task.priority o) /\
  tags_ok (Task.tags o) /\
  assigneeId_ok (Task.assigneeId o).

(** The clock never goes back. *)
Definition monotone_clock : Prop :=
  forall i j : nat, (i <= j)%nat -> clock i <= clock j.

(** What is known of every object while the clock never goes back: it was
    created no later than it was last updated, and that no later than the
    next clock reading. *)
Definition timestamps_ok (w : World) : Prop :=
  forall (l : loc) (o : Task.t),
    heap w !! l = Some o ->
    exists c m, Task.createdAt o = Some (Some c) /\
                Task.updatedAt o = Some (Some m) /\
                c <= m /\ m <= clock (ticks w).

(** The same constraints on the values an [update] carries. *)
Definition updates_ok (u : Updates) : Prop :=
  (forall v, u_title u = Some v -> title_ok v) /\
  (forall v, u_description u = Some v -> description_ok v) /\
  (forall v, u_status u = Some v -> enum_ok Object_values_TaskStatus v) /\
  (forall v, u_priority u = Some v -> enum_ok Object_values_TaskPriority v) /\
  (forall v, u_tags u = Some v -> tags_ok v) /\
  (forall v, u_assigneeId u = Some v -> assigneeId_ok v).

(** An error message names the title. *)
Definition mentions_title (message : string) : Prop :=
  exists pre post, message = (pre ++ "Title" ++ post)%string.

(** ** The components (features/tasks/components) *)

(** The components keep tasks in view state and never assign to one, so
    the state holds the task records themselves. *)

(** [handleCreateTask] of [TasksContainer]: the task is an object literal,
    its properties evaluated in the order written, and the state update
    [setTasks(prev => [...prev, newTask])] is applied to the state [prev]. *)
Definition handleCreateTask (title priority : jsstring) (prev : list Task.t)
  : M (list Task.t) :=
  u <- crypto_randomUUID ;;
  c <- new_Date ;;
  m <- new_Date ;;
  ret (prev ++ [Task.mk (Some (TaskId.mk u)) (Some title) None
                        (Some (TaskStatus_value TODO)) (Some priority)
                        None None (Some c) (Some m) None
                        (Some (js "user-1"))]).

(** The two state cells of [CreateTaskForm]. *)
Record CreateTaskForm := mkForm {
  form_title : jsstring;
  form_priority : jsstring
}.

(** [useState('')], [useState(TaskPriority.MEDIUM)] *)
Definition CreateTaskForm_initial : CreateTaskForm :=
  mkForm [] (TaskPriority_value MEDIUM).

(** [handleSubmit] of [CreateTaskForm]: the callback of the parent runs on
    the parent's state, then the title cell is reset. *)
Definition handleSubmit {S : Type}
  (onSubmit : jsstring -> jsstring -> S -> M S)
  (form : CreateTaskForm) (parent : S) : M (CreateTaskForm * S) :=
  parent' <- onSubmit (form_title form) (form_priority form) parent ;;
  ret (mkForm [] (form_priority form), parent').

(** [TasksContainer] with its form: [useState<Task[]>([])] and the cells of
    the form it renders with [onSubmit={handleCreateTask}]. *)
Record Container := mkContainer {
  form : CreateTaskForm;
  tasks : list Task.t
}.

Definition Container_initial : Container :=
  mkContainer CreateTaskForm_initial [].

(** What reaches the handlers of the form: a change of the text input, a
    change of the select element (its value under a cast), a submit. *)
Inductive Event :=
| ChangeTitle (value : jsstring)
| ChangePriority (value : jsstring)
| Submit.

Definition dispatch (ev : Event) (s : Container) : M Container :=
  match ev with
  | ChangeTitle value =>
      ret (mkContainer (mkForm value (form_priority (form s))) (tasks s))
  | ChangePriority value =>
      ret (mkContainer (mkForm (form_title (form s)) value) (tasks s))
  | Submit =>
      r <- handleSubmit handleCreateTask (form s) (tasks s) ;;
      ret (mkContainer (fst r) (snd r))
  end.

Fixpoint dispatch_all (evs : list Event) (s : Container) : M Container :=
  match evs with
  | [] => ret s
  | ev :: evs' => s' <- dispatch ev s ;; dispatch_all evs' s'
  end.

(** One [<li>] of [TaskList]: its key and the text of its three children. *)
Record ListItem := mkListItem {
  item_key : jsstring;
  item_h3 : option jsstring;
  item_status : jsstring;
  item_priority : jsstring
}.

(** The text an expression in braces renders: nothing for undefined. *)
Definition text (v : option jsstring) : jsstring :=
  match v with Some s => s | None => [] end.

(** The callback of [tasks.map] in [TaskList].  [task.id.value] raises a
    TypeError on a task without id, which type [Task] excludes: that is
    [None]. *)
Definition TaskList_item (task : Task.t) : option ListItem :=
  match Task.id task with
  | Some i =>
      Some (mkListItem (TaskId.value i) (Task.title task)
                       (js "Status: " ++ text (Task.status task))
                       (js "Priority: " ++ text (Task.priority task)))
  | None => None
  end.

(** [TaskList]: [tasks.map(task => <li key={task.id.value}>...</li>)] *)
Fixpoint TaskList (ts : list Task.t) : option (list ListItem) :=
  match ts with
  | [] => Some []
  | task :: rest =>
      match TaskList_item task, TaskList rest with
      | Some item, Some items => Some (item :: items)
      | _, _ => None
      end
  end.

(** ** More vocabulary *)

(** The id generator never yields the same id twice. *)
Definition unique_ids : Prop :=
  forall i j : nat, randomUUID i = randomUUID j -> i = j.

(** The three properties [Task] marks as set once. *)
Definition same_identity (o o' : Task.t) : Prop :=
  Task.id o' = Task.id o /\
  Task.createdAt o' = Task.createdAt o /\
  Task.creatorId o' = Task.creatorId o.

(** Two task objects agree on every property but the one a [with*]
    method for field [f] writes. *)
Definition unchanged_outside (f : Field) (o o' : Task.t) : Prop :=
  Task.id o' = Task.id o /\
  Task.status o' = Task.status o /\
  Task.createdAt o' = Task.createdAt o /\
  Task.updatedAt o' = Task.updatedAt o /\
  Task.creatorId o' = Task.creatorId o /\
  (f <> F_title -> Task.title o' = Task.title o) /\
  (f <> F_description -> Task.description o' = Task.description o) /\
  (f <> F_priority -> Task.priority o' = Task.priority o) /\
  (f <> F_dueDate -> Task.dueDate o' = Task.dueDate o) /\
  (f <> F_assigneeId -> Task.assigneeId o' = Task.assigneeId o) /\
  (f <> F_tags -> Task.tags o' = Task.tags o).



(** The value a property has after an update that may carry a key for it. *)
Definition carried {A} (k : option A) (old : A) : A :=
  match k with Some v => v | None => old end.

(** Submit events among the events dispatched. *)
Fixpoint submits (evs : list Event) : nat :=
  match evs with
  | [] => 0%nat
  | Submit :: evs' => S (submits evs')
  | _ :: evs' => submits evs'
  end.

(** What every task made by the container looks like. *)
Definition container_task (o : Task.t) : Prop :=
  Task.status o = Some (TaskStatus_value TODO) /\
  Task.creatorId o = Some (js "user-1") /\
  Task.description o = None /\ Task.dueDate o = None /\
  Task.tags o = None /\ Task.assigneeId o = None /\
  exists title, Task.title o = Some title.

(** ** Strings and arrays *)

Lemma truthy_false (s : jsstring) : truthy s = false <-> s = [].
Proof. destruct s; simpl; split; intros H; congruence. Qed.

Lemma truthy_true (s : jsstring) : truthy s = true <-> s <> [].
Proof. destruct s; simpl; split; intros H; congruence. Qed.

Lemma length_trimStart (s : jsstring) : (length (trimStart s) <= length s)%nat.
Proof.
  induction s as [|c s IH]; simpl; [lia|].
  destruct (isWhiteSpace c); simpl; lia.
Qed.

Lemma length_trim (s : jsstring) : (length (trim s) <= length s)%nat.
Proof.
  unfold trim, trimEnd. rewrite length_rev.
  etransitivity; [apply length_trimStart|].
  rewrite length_rev. apply length_trimStart.
Qed.

Lemma includes_In (a : list jsstring) (x : jsstring) :
  includes a x = true <-> In x a.
Proof.
  unfold includes. rewrite existsb_exists. split.
  - intros (y & Hy & E). apply bool_decide_eq_true in E. now subst.
  - intros H. exists x. split; [assumption|]. now apply bool_decide_eq_true.
Qed.

(** ** Computations *)

Lemma bind_eq {A B} (m : M A) (k : A -> M B) (w : World) :
  bind m k w
  = match m w with
    | Returns a w' => k a w'
    | Throws e w' => Throws e w'
    | Stuck => Stuck
    end.
Proof. reflexivity. Qed.

Lemma assign_returns (l : loc) (f : Task.t -> Task.t) (w : World) (o : Task.t) :
  heap w !! l = Some o ->
  assign l f w = Returns tt (mkWorld (<[l := f o]> (heap w)) (ticks w) (uuids w)).
Proof. intros H. unfold assign. now rewrite H. Qed.

Lemma assign_stuck (l : loc) (f : Task.t -> Task.t) (w : World) :
  heap w !! l = None -> assign l f w = Stuck.
Proof. intros H. unfold assign. now rewrite H. Qed.

Lemma world_eta (w : World) : mkWorld (heap w) (ticks w) (uuids w) = w.
Proof. now destruct w. Qed.

(** ** The validators *)

Lemma validateTag_cases (tag : Tag.t) (w : World) :
  (tag_ok tag /\ validateTag tag w = Returns tt w) \/
  (~ tag_ok tag /\
   exists msg, validateTag tag w = Throws (TaskValidationError msg) w).
Proof.
  unfold validateTag, tag_ok.
  destruct (truthy (Tag.id tag)) eqn:Hid; simpl.
  2:{ right. apply truthy_false in Hid. split; [tauto|eauto]. }
  destruct (truthy (Tag.name tag)) eqn:Hname; simpl.
  2:{ right. apply truthy_false in Hname. split; [tauto|eauto]. }
  apply truthy_true in Hid, Hname.
  destruct (Nat.ltb_spec 50 (length (Tag.name tag))).
  - right. split; [lia|eauto].
  - left. split; [tauto|reflexivity].
Qed.

Lemma validateTags_cases (tags : list Tag.t) (w : World) :
  (Forall tag_ok tags /\ validateTags tags w = Returns tt w) \/
  (Exists (fun tag => ~ tag_ok tag) tags /\
   exists msg, validateTags tags w = Throws (TaskValidationError msg) w).
Proof.
  induction tags as [|tag rest IH]; simpl.
  - left. split; [constructor|reflexivity].
  - unfold bind.
    destruct (validateTag_cases tag w) as [[Hok ->]|[Hbad [msg ->]]].
    + destruct IH as [[Hall ->]|[Hex [msg ->]]].
      * left. split; [now constructor|reflexivity].
      * right. split; [now apply Exists_cons_tl|eauto].
    + right. split; [now apply Exists_cons_hd|eauto].
Qed.

Lemma Forall_not_Exists_tag (tags : list Tag.t) :
  Forall tag_ok tags -> ~ Exists (fun tag => ~ tag_ok tag) tags.
Proof.
  induction 1 as [|tag rest Hok _ IH]; intros Hex; inversion Hex; subst; tauto.
Qed.

Lemma withTitle_cases (this : TaskBuilder) (title : jsstring) (w : World) :
  ((trim title = [] \/ (100 < length title)%nat) /\
   exists msg, withTitle this title w = Throws (TaskValidationError msg) w)
  \/
  (~ (trim title = [] \/ (100 < length title)%nat) /\
   withTitle this title w
   = (assign (task this) (Task.set_title (Some title)) ;;; ret this) w).
Proof.
  unfold withTitle, validateTitle, bind.
  destruct (truthy (trim title)) eqn:Ht; simpl.
  2:{ left. apply truthy_false in Ht. split; [tauto|eauto]. }
  apply truthy_true in Ht.
  destruct (Nat.ltb_spec 100 (length title)).
  - left. split; [tauto|eauto].
  - right. split; [intros [?|?]; [congruence|lia]|reflexivity].
Qed.

(** Every [with*] call either rejects its argument, leaving the heap as
    it was, or makes the one assignment of [store]. *)
Lemma call_cases (this : TaskBuilder) (c : WithCall) (w : World) :
  (invalid_argument (clock (ticks w)) c /\
   exists msg n,
     call this c w
     = Throws (TaskValidationError msg) (mkWorld (heap w) n (uuids w)) /\
     (ticks w <= n)%nat)
  \/
  (~ invalid_argument (clock (ticks w)) c /\
   call this c w
   = (assign (task this) (store c) ;;; ret this)
       (mkWorld (heap w) (ticks w + clock_reads c) (uuids w))).
Proof.
  destruct c as [title|description|priority|date|assigneeId|tags]; simpl.
  - destruct (withTitle_cases this title w) as [[Hinv [msg ->]]|[Hv ->]].
    + left. split; [exact Hinv|].
      exists msg, (ticks w). now rewrite world_eta.
    + right. split; [exact Hv|]. now rewrite Nat.add_0_r, world_eta.
  - unfold withDescription.
    destruct (Nat.ltb_spec 1000 (length description)).
    + left. split; [assumption|].
      exists "Description must not exceed 1000 characters", (ticks w).
      now rewrite world_eta.
    + right. split; [lia|]. now rewrite Nat.add_0_r, world_eta.
  - unfold withPriority, validatePriority, bind.
    destruct (includes Object_values_TaskPriority priority) eqn:Hp; simpl.
    + right. apply includes_In in Hp. split; [intros Hn; now apply Hn|].
      now rewrite Nat.add_0_r, world_eta.
    + left. split.
      * intros Hin.
        pose proof (proj2 (includes_In Object_values_TaskPriority priority) Hin).
        congruence.
      * exists "Invalid priority value", (ticks w). now rewrite world_eta.
  - unfold withDueDate, validateDueDate, bind.
    destruct date as [t|]; simpl.
    2:{ left. split; [exact I|].
        exists "Invalid due date", (ticks w). now rewrite world_eta. }
    destruct (Z.ltb_spec t (clock (ticks w))).
    + left. split; [assumption|].
      exists "Due date cannot be in the past", (S (ticks w)).
      split; [reflexivity|lia].
    + right. split; [lia|]. now rewrite Nat.add_1_r.
  - unfold withAssignee.
    destruct (truthy (trim assigneeId)) eqn:Ha; simpl.
    + right. apply truthy_true in Ha. split; [assumption|].
      now rewrite Nat.add_0_r, world_eta.
    + left. apply truthy_false in Ha. split; [assumption|].
      exists "Assignee ID cannot be empty", (ticks w). now rewrite world_eta.
  - unfold withTags, bind.
    destruct (validateTags_cases tags w) as [[Hall ->]|[Hex [msg ->]]].
    + right. split; [now apply Forall_not_Exists_tag|].
      now rewrite Nat.add_0_r, world_eta.
    + left. split; [assumption|].
      exists msg, (ticks w). now rewrite world_eta.
Qed.

Lemma call_returns (this : TaskBuilder) (c : WithCall) (w : World) (o : Task.t) :
  heap w !! task this = Some o ->
  ~ invalid_argument (clock (ticks w)) c ->
  call this c w
  = Returns this (mkWorld (<[task this := store c o]> (heap w))
                          (ticks w + clock_reads c) (uuids w)).
Proof.
  intros Ho Hv.
  destruct (call_cases this c w) as [[Hinv _]|[_ ->]]; [contradiction|].
  unfold bind. now erewrite assign_returns by exact Ho.
Qed.

Lemma update_returns (this : loc) (updates : Updates) (w : World) (o : Task.t) :
  heap w !! this = Some o ->
  update this updates w
  = Returns tt
      (mkWorld (<[this := Task.set_updatedAt (Some (Some (clock (ticks w))))
                            (Object_assign updates o)]> (heap w))
               (S (ticks w)) (uuids w)).
Proof.
  intros H. unfold update, bind, new_Date.
  rewrite (assign_returns _ _ _ _ H). simpl.
  erewrite assign_returns by (simpl; apply lookup_insert_eq).
  simpl. now rewrite insert_insert_eq.
Qed.

Lemma update_stuck (this : loc) (updates : Updates) (w : World) :
  heap w !! this = None -> update this updates w = Stuck.
Proof. intros H. unfold update, bind. now rewrite (assign_stuck _ _ _ H). Qed.

Lemma TaskBuilder_new_returns (creatorId : jsstring) (w : World) :
  TaskBuilder_new creatorId w
  = Returns (mkTaskBuilder (fresh (dom (heap w))))
      (mkWorld (<[fresh (dom (heap w)) :=
                    Task.mk (Some (TaskId.mk (randomUUID (uuids w)))) None None
                         (Some (TaskStatus_value TODO))
                         (Some (TaskPriority_value MEDIUM))
                         None None (Some (Some (clock (ticks w))))
                         (Some (Some (clock (S (ticks w))))) None
                         (Some creatorId)]> (heap w))
               (S (S (ticks w))) (S (uuids w))).
Proof. reflexivity. Qed.

Lemma build_cases (this : TaskBuilder) (w : World) :
  build this w
  = match heap w !! task this with
    | Some o =>
        if negb (truthy_opt (Task.title o)) then
          Throws (TaskValidationError "Title is required") w
        else if negb (truthy_opt (Task.creatorId o)) then
          Throws (TaskValidationError "Creator ID is required") w
        else Returns (task this) w
    | None => Stuck
    end.
Proof.
  unfold build, validateRequiredFields, bind, deref.
  destruct (heap w !! task this) as [o|]; [|reflexivity].
  destruct (truthy_opt (Task.title o)); simpl; [|reflexivity].
  now destruct (truthy_opt (Task.creatorId o)).
Qed.

Lemma truthy_opt_false (t : option jsstring) :
  truthy_opt t = false <-> t = None \/ t = Some [].
Proof.
  destruct t as [s|]; simpl.
  - rewrite truthy_false. split; [intros ->; now right|].
    intros [?|?]; congruence.
  - split; [now left|reflexivity].
Qed.

Lemma trim_nonempty (s : jsstring) : trim s <> [] -> s <> [].
Proof. intros H ->. now apply H. Qed.

(** ** The builder's operations *)

(** C7. Every [with*] operation, called with an argument that is invalid
    for it, throws a validation error and leaves every task object, the
    builder's draft among them, exactly as it was before the call. *)
Theorem with_invalid_argument_throws
  (this : TaskBuilder) (c : WithCall) (w : World) :
  invalid_argument (clock (ticks w)) c ->
  exists msg w',
    call this c w = Throws (TaskValidationError msg) w' /\ heap w' = heap w.
Proof.
  intros Hinv.
  destruct (call_cases this c w) as [(_ & msg & n & -> & _)|[Hv _]];
    [|contradiction].
  now exists msg, (mkWorld (heap w) n (uuids w)).
Qed.

(** C5, amended. [withTitle] throws a validation error if and only if the
    title is empty after trimming or its length, as given and not after
    trimming, exceeds 100; otherwise it returns the builder and the draft
    holds the title unchanged, not trimmed. *)
Theorem withTitle_throws_iff
  (this : TaskBuilder) (title : jsstring) (w : World) (o : Task.t) :
  heap w !! task this = Some o ->
  ((exists msg w', withTitle this title w = Throws (TaskValidationError msg) w')
   <-> trim title = [] \/ (100 < length title)%nat) /\
  (~ (trim title = [] \/ (100 < length title)%nat) ->
   exists w', withTitle this title w = Returns this w' /\
              heap w' !! task this = Some (Task.set_title (Some title) o)).
Proof.
  intros Ho.
  destruct (withTitle_cases this title w) as [[Hinv [msg E]]|[Hv E]].
  - split; [|tauto]. split; [tauto|]. intros _. eauto.
  - rewrite bind_eq, (assign_returns _ _ _ o Ho) in E. unfold ret in E.
    split.
    + split; [|tauto]. intros (msg & w' & E'). congruence.
    + intros _. eexists. split; [exact E|]. simpl. apply lookup_insert_eq.
Qed.

(** C6. [build] throws a validation error if and only if the draft's
    title is missing or empty or its creator id is empty; when the title
    is the cause the message names the title; and a builder made with the
    empty string as creator id fails at [build] although a valid title
    was set. *)
Theorem build_throws_iff
  (this : TaskBuilder) (w : World) (o : Task.t) (title : jsstring) (w0 : World) :
  heap w !! task this = Some o ->
  ((exists msg w', build this w = Throws (TaskValidationError msg) w')
   <-> Task.title o = None \/ Task.title o = Some [] \/
       Task.creatorId o = None \/ Task.creatorId o = Some []) /\
  (Task.title o = None \/ Task.title o = Some [] ->
   exists msg, build this w = Throws (TaskValidationError msg) w /\
               mentions_title msg) /\
  (~ (trim title = [] \/ (100 < length title)%nat) ->
   exists w',
     (b <- TaskBuilder_new [] ;; withTitle b title ;;; build b) w0
     = Throws (TaskValidationError "Creator ID is required") w').
Proof.
  intros Ho. rewrite build_cases, Ho. repeat split.
  - destruct (truthy_opt (Task.title o)) eqn:Ht; simpl.
    + destruct (truthy_opt (Task.creatorId o)) eqn:Hc; simpl.
      * intros (msg & w' & E). discriminate.
      * intros _. apply truthy_opt_false in Hc. tauto.
    + intros _. apply truthy_opt_false in Ht. tauto.
  - intros H.
    destruct (truthy_opt (Task.title o)) eqn:Ht; simpl; [|eauto].
    destruct (truthy_opt (Task.creatorId o)) eqn:Hc; simpl; [|eauto].
    assert (truthy_opt (Task.title o) = false \/
            truthy_opt (Task.creatorId o) = false)
      by (rewrite !truthy_opt_false; tauto).
    destruct H0; congruence.
  - intros H. apply truthy_opt_false in H. rewrite H. simpl.
    exists "Title is required". split; [reflexivity|].
    now exists EmptyString, " is required"%string.
  - intros Hv. unfold bind at 1. rewrite TaskBuilder_new_returns.
    set (l := fresh (dom (heap w0))).
    unfold bind.
    match goal with
    | |- context [withTitle ?b title ?W] =>
        change (withTitle b title W) with (call b (WithTitle title) W);
        erewrite (call_returns b (WithTitle title) W)
          by (simpl; first [apply lookup_insert_eq | exact Hv])
    end.
    rewrite build_cases. simpl.
    rewrite lookup_insert_eq. simpl.
    assert (Ht : truthy title = true)
      by (apply truthy_true, trim_nonempty; tauto).
    rewrite Ht. simpl. eauto.
Qed.

(** C8, amended. A new builder's draft has status TODO, priority MEDIUM
    and the creator id as given; [createdAt] is the clock reading made at
    construction and [updatedAt] the reading after it, so the two are
    equal whenever these two readings are. *)
Theorem TaskBuilder_new_draft (creatorId : jsstring) (w : World) :
  exists this w' o,
    TaskBuilder_new creatorId w = Returns this w' /\
    heap w' !! task this = Some o /\
    Task.status o = Some (TaskStatus_value TODO) /\
    Task.priority o = Some (TaskPriority_value MEDIUM) /\
    Task.creatorId o = Some creatorId /\
    Task.createdAt o = Some (Some (clock (ticks w))) /\
    Task.updatedAt o = Some (Some (clock (S (ticks w)))) /\
    (clock (ticks w) = clock (S (ticks w)) ->
     Task.createdAt o = Task.updatedAt o).
Proof.
  do 3 eexists. split; [apply TaskBuilder_new_returns|].
  split; [simpl; apply lookup_insert_eq|].
  simpl. repeat split. now intros ->.
Qed.

(** ** The entity's operation *)

(** C10. After [update], whatever the updates carry, an [updatedAt] of
    their own included, the entity's [updatedAt] is the clock reading
    made by the call. *)
Theorem update_sets_updatedAt_now
  (this : loc) (updates : Updates) (w : World) (o : Task.t) :
  heap w !! this = Some o ->
  exists w' o',
    update this updates w = Returns tt w' /\
    heap w' !! this = Some o' /\
    Task.updatedAt o' = Some (Some (clock (ticks w))).
Proof.
  intros Ho. do 2 eexists. split; [apply (update_returns _ _ _ o Ho)|].
  split; [simpl; apply lookup_insert_eq|reflexivity].
Qed.

(** C3, amended. [update({status: DONE})] on an existing entity sets
    [status] to DONE and [updatedAt] to the clock reading made by the
    call, and leaves the nine other properties, and every other object,
    unchanged; the new [updatedAt] is strictly greater than the prior one
    exactly when that reading is later than the prior [updatedAt]. *)
Theorem update_status_DONE (this : loc) (w : World) (o : Task.t) :
  heap w !! this = Some o ->
  exists w' o',
    update this (status_only DONE) w = Returns tt w' /\
    heap w' !! this = Some o' /\
    Task.status o' = Some (TaskStatus_value DONE) /\
    Task.updatedAt o' = Some (Some (clock (ticks w))) /\
    Task.id o' = Task.id o /\
    Task.createdAt o' = Task.createdAt o /\
    Task.creatorId o' = Task.creatorId o /\
    Task.title o' = Task.title o /\
    Task.description o' = Task.description o /\
    Task.priority o' = Task.priority o /\
    Task.dueDate o' = Task.dueDate o /\
    Task.tags o' = Task.tags o /\
    Task.assigneeId o' = Task.assigneeId o /\
    (forall l, l <> this -> heap w' !! l = heap w !! l) /\
    (forall t, Task.updatedAt o = Some (Some t) ->
       (Date_lt (Task.updatedAt o) (Task.updatedAt o') <-> t < clock (ticks w))).
Proof.
  intros Ho. do 2 eexists. split; [apply (update_returns _ _ _ o Ho)|].
  split; [simpl; apply lookup_insert_eq|].
  simpl. repeat (split; [reflexivity|]). split.
  - intros l Hl. apply lookup_insert_ne. intros E. now apply Hl.
  - intros t0 Ht0. rewrite Ht0. reflexivity.
Qed.

(** ** Aliasing of the draft *)

Lemma reflects_store (c : WithCall) (o : Task.t) : reflects (store c o) c.
Proof. now destruct c. Qed.

Lemma reflects_store_other (c c' : WithCall) (o : Task.t) :
  field_of c' <> field_of c -> reflects o c -> reflects (store c' o) c.
Proof. destruct c, c'; simpl; intros Hne H; congruence. Qed.

Lemma build_returns_inv (this : TaskBuilder) (w : World) (t : loc) (w' : World) :
  build this w = Returns t w' ->
  t = task this /\ w' = w /\
  exists o, heap w !! task this = Some o /\
            truthy_opt (Task.title o) = true /\
            truthy_opt (Task.creatorId o) = true.
Proof.
  rewrite build_cases.
  destruct (heap w !! task this) as [o|]; [|discriminate].
  destruct (truthy_opt (Task.title o)) eqn:Ht; simpl; [|discriminate].
  destruct (truthy_opt (Task.creatorId o)) eqn:Hc; simpl; [|discriminate].
  intros [= <- <-]. split; [reflexivity|]. split; [reflexivity|].
  exists o. now repeat split.
Qed.

(** C1, amended. When [build] succeeds the task it returns is the
    builder's draft object itself, not a copy: the argument of every
    later successful [with*] call on the builder shows in the returned
    task, and every assignment made to the returned task shows in the
    builder's draft. *)
Theorem build_returns_the_draft
  (this : TaskBuilder) (w : World) (t : loc) (w' : World) :
  build this w = Returns t w' ->
  t = task this /\ w' = w /\
  (forall c b w2,
     call this c w' = Returns b w2 ->
     exists o, heap w2 !! t = Some o /\ reflects o c) /\
  (forall f w2,
     assign t f w' = Returns tt w2 ->
     exists o, heap w' !! task this = Some o /\
               heap w2 !! task this = Some (f o)).
Proof.
  intros Hb. apply build_returns_inv in Hb as (-> & -> & o & Ho & _).
  repeat split.
  - intros c b w2 Hc.
    destruct (call_cases this c w) as [(_ & msg & n & E & _)|[Hv _]].
    + congruence.
    + rewrite (call_returns this c w o Ho Hv) in Hc.
      injection Hc as <- <-. exists (store c o).
      split; [simpl; apply lookup_insert_eq|apply reflects_store].
  - intros f w2 Ha. rewrite (assign_returns _ _ _ o Ho) in Ha.
    injection Ha as <-. exists o.
    split; [exact Ho|simpl; apply lookup_insert_eq].
Qed.

(** ** Round trip through the builder *)

Lemma chain_returns (this : TaskBuilder) (cs : list WithCall) :
  forall (w : World) (o : Task.t),
    heap w !! task this = Some o ->
    valid_arguments (ticks w) cs ->
    exists n,
      chain this cs w
      = Returns this
          (mkWorld (<[task this := fold_left (fun o c => store c o) cs o]>
                      (heap w)) n (uuids w)).
Proof.
  induction cs as [|c cs IH]; intros w o Ho Hv; simpl.
  - exists (ticks w). unfold ret. rewrite insert_id by exact Ho.
    now rewrite world_eta.
  - destruct Hv as [Hc Hv]. unfold bind.
    rewrite (call_returns this c w o Ho Hc).
    destruct (IH (mkWorld (<[task this := store c o]> (heap w))
                          (ticks w + clock_reads c) (uuids w)) (store c o))
      as [n E]; [simpl; apply lookup_insert_eq|exact Hv|].
    exists n. rewrite E. simpl. now rewrite insert_insert_eq.
Qed.

Lemma reflects_stores (c : WithCall) (cs : list WithCall) :
  Forall (fun c' => field_of c' <> field_of c) cs ->
  forall o, reflects o c -> reflects (fold_left (fun o c => store c o) cs o) c.
Proof.
  induction 1 as [|c' cs Hne _ IH]; intros o Ho; simpl; [exact Ho|].
  apply IH. now apply reflects_store_other.
Qed.

(** C4. A chain of [with*] calls whose arguments are all valid returns,
    and if [build] then succeeds, the task it returns shows, for each
    call that no later call of the chain overwrote, the argument of that
    call exactly as given: the title untrimmed, the tags in their order. *)
Theorem with_build_round_trip
  (this : TaskBuilder) (w : World) (o : Task.t)
  (cs1 : list WithCall) (c : WithCall) (cs2 : list WithCall) :
  heap w !! task this = Some o ->
  valid_arguments (ticks w) (cs1 ++ c :: cs2) ->
  Forall (fun c' => field_of c' <> field_of c) cs2 ->
  exists w1,
    chain this (cs1 ++ c :: cs2) w = Returns this w1 /\
    forall t w2,
      build this w1 = Returns t w2 ->
      exists o', heap w2 !! t = Some o' /\ reflects o' c.
Proof.
  intros Ho Hv Hlast.
  destruct (chain_returns this (cs1 ++ c :: cs2) w o Ho Hv) as [n E].
  eexists. split; [exact E|].
  intros t w2 Hb. apply build_returns_inv in Hb as (-> & -> & _).
  eexists. split; [simpl; apply lookup_insert_eq|].
  rewrite fold_left_app. simpl.
  apply reflects_stores; [exact Hlast|apply reflects_store].
Qed.

(** ** The field constraints *)

(** Reading a property after [copy_key] wrote one. *)
Lemma copy_key_other {A B} (get : Task.t -> B) (k : option A)
  (set : A -> Task.t -> Task.t) (o : Task.t) :
  (forall v o', get (set v o') = get o') -> get (copy_key k set o) = get o.
Proof. intros H. destruct k; simpl; [apply H|reflexivity]. Qed.

Lemma copy_key_same {A} (get : Task.t -> A) (k : option A)
  (set : A -> Task.t -> Task.t) (o : Task.t) :
  (forall v o', get (set v o') = v) ->
  get (copy_key k set o) = carried k (get o).
Proof. intros H. destruct k; simpl; [apply H|reflexivity]. Qed.

Ltac through_keys get :=
  repeat first [ rewrite (copy_key_other get) by (intros; reflexivity)
               | rewrite (copy_key_same get) by (intros; reflexivity) ].

Lemma Object_assign_fields (u : Updates) (o : Task.t) :
  Task.id (Object_assign u o) = carried (u_id u) (Task.id o) /\
  Task.title (Object_assign u o) = carried (u_title u) (Task.title o) /\
  Task.description (Object_assign u o)
  = carried (u_description u) (Task.description o) /\
  Task.status (Object_assign u o) = carried (u_status u) (Task.status o) /\
  Task.priority (Object_assign u o)
  = carried (u_priority u) (Task.priority o) /\
  Task.dueDate (Object_assign u o) = carried (u_dueDate u) (Task.dueDate o) /\
  Task.tags (Object_assign u o) = carried (u_tags u) (Task.tags o) /\
  Task.createdAt (Object_assign u o)
  = carried (u_createdAt u) (Task.createdAt o) /\
  Task.updatedAt (Object_assign u o)
  = carried (u_updatedAt u) (Task.updatedAt o) /\
  Task.assigneeId (Object_assign u o)
  = carried (u_assigneeId u) (Task.assigneeId o) /\
  Task.creatorId (Object_assign u o)
  = carried (u_creatorId u) (Task.creatorId o).
Proof.
  unfold Object_assign. repeat split.
  - through_keys Task.id. reflexivity.
  - through_keys Task.title. reflexivity.
  - through_keys Task.description. reflexivity.
  - through_keys Task.status. reflexivity.
  - through_keys Task.priority. reflexivity.
  - through_keys Task.dueDate. reflexivity.
  - through_keys Task.tags. reflexivity.
  - through_keys Task.createdAt. reflexivity.
  - through_keys Task.updatedAt. reflexivity.
  - through_keys Task.assigneeId. reflexivity.
  - through_keys Task.creatorId. reflexivity.
Qed.

Lemma Task_eta (o : Task.t) :
  Task.mk (Task.id o) (Task.title o) (Task.description o) (Task.status o)
          (Task.priority o) (Task.dueDate o) (Task.tags o) (Task.createdAt o)
          (Task.updatedAt o) (Task.assigneeId o) (Task.creatorId o) = o.
Proof. now destruct o. Qed.

Lemma TaskEntity_new_returns (t : loc) (w : World) (o : Task.t) :
  heap w !! t = Some o ->
  TaskEntity_new t w
  = Returns (fresh (dom (heap w)))
      (mkWorld (<[fresh (dom (heap w)) := o]> (heap w)) (ticks w) (uuids w)).
Proof.
  intros Ho. unfold TaskEntity_new, bind, deref, alloc.
  now rewrite Ho, Task_eta.
Qed.

Lemma fresh_not_allocated (w : World) (l : loc) (o : Task.t) :
  heap w !! l = Some o -> l <> fresh (dom (heap w)).
Proof.
  intros Ho ->. apply (is_fresh (dom (heap w))).
  now apply (elem_of_dom_2 _ _ o).
Qed.

Lemma initial_draft_constraints
  (u : jsstring) (c m : option Date) (creatorId : jsstring) :
  draft_constraints
    (Task.mk (Some (TaskId.mk u)) None None (Some (TaskStatus_value TODO))
             (Some (TaskPriority_value MEDIUM)) None None c m None
             (Some creatorId)).
Proof.
  unfold draft_constraints, description_ok, tags_ok, assigneeId_ok, enum_ok.
  simpl. split; [now left|]. split; [discriminate|].
  split; [eexists; split; [reflexivity|now left]|].
  split; [eexists; split; [reflexivity|right; now left]|].
  split; discriminate.
Qed.

Lemma store_draft_constraints (now : Z) (c : WithCall) (o : Task.t) :
  ~ invalid_argument now c ->
  draft_constraints o -> draft_constraints (store c o).
Proof.
  intros Hv (Ht & Hd & Hs & Hp & Htg & Ha).
  destruct c as [title|description|priority|date|assigneeId|tags];
    unfold draft_constraints; simpl in *;
    (split; [|split; [|split; [|split; [|split]]]]); try assumption.
  - right. exists title. split; [reflexivity|].
    pose proof (length_trim title).
    destruct (trim title) eqn:E; [tauto|]. simpl in *. lia.
  - intros s [= <-]. lia.
  - exists priority. split; [reflexivity|].
    destruct (includes Object_values_TaskPriority priority) eqn:Hin.
    + now apply includes_In in Hin.
    + exfalso. apply Hv. intros Hin'.
      pose proof (proj2 (includes_In Object_values_TaskPriority priority) Hin').
      congruence.
  - intros s [= <-]. exact Hv.
  - intros ts [= <-].
    destruct (validateTags_cases tags (mkWorld ∅ 0 0)) as [[Hall _]|[Hex _]];
      [exact Hall|contradiction].
Qed.

Lemma attempts_inv (this : TaskBuilder) (cs : list WithCall) :
  forall (w : World) (o : Task.t),
    heap w !! task this = Some o ->
    draft_constraints o ->
    exists w' o',
      attempts this cs w = Returns tt w' /\
      heap w' !! task this = Some o' /\
      draft_constraints o'.
Proof.
  induction cs as [|c cs IH]; intros w o Ho Hd; simpl.
  - exists w, o. split; [reflexivity|]. now split.
  - rewrite bind_eq. unfold try_catch.
    destruct (call_cases this c w) as [(_ & msg & n & -> & _)|[Hv _]].
    + apply (IH _ o); [exact Ho|exact Hd].
    + rewrite (call_returns this c w o Ho Hv).
      apply (IH _ (store c o)); [simpl; apply lookup_insert_eq|].
      now apply (store_draft_constraints (clock (ticks w))).
Qed.

Lemma draft_built_constraints (o : Task.t) :
  draft_constraints o -> truthy_opt (Task.title o) = true ->
  field_constraints o.
Proof.
  intros ([Hn|Ht] & H) Htitle; [|now split].
  rewrite Hn in Htitle. discriminate.
Qed.

Lemma carried_ok {A} (P : A -> Prop) (k : option A) (old : A) :
  (forall v, k = Some v -> P v) -> P old -> P (carried k old).
Proof. intros Hk Hold. destruct k as [v|]; simpl; [now apply Hk|exact Hold]. Qed.

Lemma Object_assign_constraints (u : Updates) (d : option Date) (o : Task.t) :
  updates_ok u -> field_constraints o ->
  field_constraints (Task.set_updatedAt d (Object_assign u o)).
Proof.
  intros (Ut & Ud & Us & Up & Utg & Ua) (Ht & Hd & Hs & Hp & Htg & Ha).
  destruct (Object_assign_fields u o)
    as (_ & Et & Ed & Es & Ep & _ & Etg & _ & _ & Ea & _).
  unfold field_constraints. simpl. rewrite Et, Ed, Es, Ep, Etg, Ea.
  split; [now apply carried_ok|]. split; [now apply carried_ok|].
  split; [now apply carried_ok|]. split; [now apply carried_ok|].
  split; now apply carried_ok.
Qed.

Lemma update_all_inv (this : loc) (us : list Updates) :
  Forall updates_ok us ->
  forall (w : World) (o : Task.t),
    heap w !! this = Some o ->
    field_constraints o ->
    exists w' o',
      update_all this us w = Returns tt w' /\
      heap w' !! this = Some o' /\
      field_constraints o' /\
      forall l, l <> this -> heap w' !! l = heap w !! l.
Proof.
  induction 1 as [|u us Hu _ IH]; intros w o Ho Hc; simpl.
  - exists w, o. split; [reflexivity|]. split; [exact Ho|]. now split.
  - rewrite bind_eq, (update_returns this u w o Ho).
    match goal with
    | |- context [update_all this us ?W] =>
        destruct (IH W _ (lookup_insert_eq _ _ _)
                    (Object_assign_constraints u _ o Hu Hc))
          as (w' & o' & E & Ho' & Hc' & Hframe)
    end.
    exists w', o'. split; [exact E|]. split; [exact Ho'|].
    split; [exact Hc'|].
    intros l Hl. rewrite (Hframe l Hl). simpl.
    apply lookup_insert_ne. congruence.
Qed.

(** C2, amended. The task returned by a successful [build] on a builder
    that was driven through its [with*] operations, and the entity made
    from it and then subjected to any sequence of updates whose values
    themselves meet the constraints, satisfy the field constraints of the
    data model. *)
Theorem built_task_field_constraints
  (creatorId : jsstring) (cs : list WithCall) (us : list Updates)
  (w : World) (t e : loc) (w' : World) :
  Forall updates_ok us ->
  build_entity creatorId cs us w = Returns (t, e) w' ->
  exists ot oe,
    heap w' !! t = Some ot /\ field_constraints ot /\
    heap w' !! e = Some oe /\ field_constraints oe.
Proof.
  intros Hus H. unfold build_entity in H.
  rewrite bind_eq, TaskBuilder_new_returns, bind_eq in H.
  match type of H with
  | context [attempts ?b cs ?w1] =>
      destruct (attempts_inv b cs w1 _ (lookup_insert_eq _ _ _)
                  (initial_draft_constraints _ _ _ _))
        as (w2 & o2 & E2 & Ho2 & Hd2)
  end.
  rewrite E2, bind_eq in H.
  match type of H with
  | context [build ?b w2] => destruct (build b w2) as [t' w3| |] eqn:Eb
  end; try discriminate.
  apply build_returns_inv in Eb as (-> & -> & o2' & Ho2' & Ht & _).
  simpl in Ho2, Ho2'. rewrite Ho2 in Ho2'. injection Ho2' as <-.
  pose proof (draft_built_constraints o2 Hd2 Ht) as Hc2.
  cbn [task] in H.
  rewrite bind_eq, (TaskEntity_new_returns _ _ o2 Ho2), bind_eq in H.
  match type of H with
  | context [update_all ?e us ?W] =>
      destruct (update_all_inv e us Hus W _ (lookup_insert_eq _ _ _) Hc2)
        as (w4 & o4 & E4 & Ho4 & Hc4 & Hframe)
  end.
  rewrite E4 in H. injection H as <- <- <-.
  exists o2, o4. split; [|split; [exact Hc2|split; [exact Ho4|exact Hc4]]].
  rewrite Hframe by (eapply fresh_not_allocated; exact Ho2).
  simpl. rewrite lookup_insert_ne; [exact Ho2|].
  intros E. symmetry in E. revert E. eapply fresh_not_allocated; exact Ho2.
Qed.

(** ** Timestamps *)

Lemma store_timestamps (c : WithCall) (o : Task.t) :
  Task.createdAt (store c o) = Task.createdAt o /\
  Task.updatedAt (store c o) = Task.updatedAt o.
Proof. now destruct c. Qed.

Lemma Object_assign_createdAt (u : Updates) (o : Task.t) :
  u_createdAt u = None ->
  Task.createdAt (Object_assign u o) = Task.createdAt o.
Proof.
  intros Hk.
  destruct (Object_assign_fields u o) as (_ & _ & _ & _ & _ & _ & _ & E & _).
  now rewrite E, Hk.
Qed.

Section Monotone.

Hypothesis clock_monotone : monotone_clock.

Lemma timestamps_ok_later (w : World) (n k : nat) :
  timestamps_ok w -> (ticks w <= n)%nat ->
  timestamps_ok (mkWorld (heap w) n k).
Proof using Type clock_monotone.
  intros Hw Hn l o Ho. simpl in *.
  destruct (Hw l o Ho) as (c & m & Hc & Hm & Hcm & Hmn).
  exists c, m. repeat split; try assumption.
  pose proof (clock_monotone _ _ Hn). lia.
Qed.

Lemma timestamps_ok_insert (w : World) (l : loc) (o' : Task.t) (n k : nat) :
  timestamps_ok w -> (ticks w <= n)%nat ->
  (exists c m, Task.createdAt o' = Some (Some c) /\
               Task.updatedAt o' = Some (Some m) /\
               c <= m /\ m <= clock n) ->
  timestamps_ok (mkWorld (<[l := o']> (heap w)) n k).
Proof using Type clock_monotone.
  intros Hw Hn Ho' l0 o0. simpl.
  destruct (decide (l = l0)) as [<-|Hne].
  - rewrite lookup_insert_eq. now intros [= <-].
  - rewrite lookup_insert_ne by exact Hne. intros Ho0.
    now apply (timestamps_ok_later w n k Hw Hn l0 o0).
Qed.

Lemma run_op_timestamps (op : Op) (w w' : World) :
  no_createdAt_key op ->
  timestamps_ok w -> after (run_op op w) = Some w' ->
  timestamps_ok w' /\ (ticks w <= ticks w')%nat.
Proof using Type clock_monotone.
  intros Hkey Hw.
  destruct op as [creatorId|this c|this|t|this updates]; unfold run_op.
  - rewrite bind_eq, TaskBuilder_new_returns. intros [= <-]. simpl.
    split; [|lia].
    apply timestamps_ok_insert; [exact Hw|lia|].
    do 2 eexists. repeat split.
    + apply clock_monotone. lia.
    + apply clock_monotone. lia.
  - rewrite bind_eq.
    destruct (call_cases this c w) as [(_ & msg & n & -> & Hn)|[Hv E]].
    + intros [= <-]. split; [now apply timestamps_ok_later|exact Hn].
    + destruct (heap w !! task this) as [o|] eqn:Ho.
      * rewrite (call_returns this c w o Ho Hv). intros [= <-]. simpl.
        split; [|lia].
        destruct (Hw _ _ Ho) as (c0 & m & Hc & Hm & Hcm & Hmn).
        destruct (store_timestamps c o) as [Ec Em].
        apply timestamps_ok_insert; [exact Hw|lia|].
        exists c0, m. rewrite Ec, Em. repeat split; try assumption.
        pose proof (clock_monotone (ticks w) (ticks w + clock_reads c)%nat).
        lia.
      * rewrite E, bind_eq, assign_stuck by exact Ho. discriminate.
  - rewrite bind_eq, build_cases.
    destruct (heap w !! task this) as [o|]; [|discriminate].
    destruct (truthy_opt (Task.title o)); simpl;
      [destruct (truthy_opt (Task.creatorId o)); simpl|];
      intros [= <-]; (split; [exact Hw|lia]).
  - rewrite bind_eq.
    destruct (heap w !! t) as [o|] eqn:Ho.
    + rewrite (TaskEntity_new_returns t w o Ho). intros [= <-]. simpl.
      split; [|lia].
      destruct (Hw _ _ Ho) as (c0 & m & Hc & Hm & Hcm & Hmn).
      apply timestamps_ok_insert; [exact Hw|lia|]. now exists c0, m.
    + unfold TaskEntity_new, deref. rewrite bind_eq, Ho. discriminate.
  - destruct (heap w !! this) as [o|] eqn:Ho.
    + rewrite (update_returns this updates w o Ho). intros [= <-]. simpl.
      split; [|lia].
      destruct (Hw _ _ Ho) as (c0 & m & Hc & Hm & Hcm & Hmn).
      apply timestamps_ok_insert; [exact Hw|lia|].
      exists c0, (clock (ticks w)). simpl.
      rewrite Object_assign_createdAt by exact Hkey.
      repeat split; try assumption.
      * lia.
      * apply clock_monotone. lia.
    + rewrite (update_stuck this updates w Ho). discriminate.
Qed.

Lemma run_ops_timestamps (ops : list Op) :
  Forall no_createdAt_key ops ->
  forall w w' : World,
    timestamps_ok w -> after (run_ops ops w) = Some w' -> timestamps_ok w'.
Proof using Type clock_monotone.
  induction 1 as [|op ops Hop _ IH]; intros w w' Hw; simpl.
  - now intros [= <-].
  - rewrite bind_eq. unfold try_catch.
    destruct (run_op op w) as [[] w1|e w1|] eqn:E; try discriminate.
    + apply IH. apply (run_op_timestamps op w w1 Hop Hw). now rewrite E.
    + apply IH. apply (run_op_timestamps op w w1 Hop Hw). now rewrite E.
Qed.

(** C9, amended. While the clock never goes back, in every world reached
    by calls of the builder and of the entity among which no update
    carries a [createdAt] key, every task object, the drafts, the tasks
    [build] returned and the entities under any sequence of such updates
    alike, has [updatedAt >= createdAt]. *)
Theorem updatedAt_ge_createdAt
  (ops : list Op) (w : World) (l : loc) (o : Task.t) :
  Forall no_createdAt_key ops ->
  reaches ops w ->
  heap w !! l = Some o ->
  Date_le (Task.createdAt o) (Task.updatedAt o).
Proof using Type clock_monotone.
  intros Hkeys (n & k & Hr) Ho.
  assert (Hinit : timestamps_ok (mkWorld ∅ n k)).
  { intros l0 o0. simpl. rewrite lookup_empty. discriminate. }
  destruct (run_ops_timestamps ops Hkeys _ w Hinit Hr l o Ho)
    as (c & m & -> & -> & Hcm & _).
  exact Hcm.
Qed.

End Monotone.

(** ** Further properties of the builder *)

Lemma store_unchanged_outside (c : WithCall) (o : Task.t) :
  unchanged_outside (field_of c) o (store c o).
Proof.
  destruct c; unfold unchanged_outside; simpl;
    repeat split; intros H; first [reflexivity | now elim H].
Qed.

Lemma store_comm (c1 c2 : WithCall) (o : Task.t) :
  field_of c1 <> field_of c2 ->
  store c2 (store c1 o) = store c1 (store c2 o).
Proof. destruct c1, c2; simpl; intros H; first [reflexivity | now elim H]. Qed.

Lemma store_overwrites (c1 c2 : WithCall) (o : Task.t) :
  field_of c1 = field_of c2 -> store c2 (store c1 o) = store c2 o.
Proof. destruct c1, c2; simpl; intros H; first [reflexivity | discriminate H]. Qed.

(** X1. On a builder whose draft exists, a [with*] call returns, and then
    returns the builder it was called on, exactly when its argument is
    valid, and throws a validation error exactly when it is not. *)
Theorem call_returns_iff
  (this : TaskBuilder) (c : WithCall) (w : World) (o : Task.t) :
  heap w !! task this = Some o ->
  ((exists b w', call this c w = Returns b w')
   <-> ~ invalid_argument (clock (ticks w)) c) /\
  ((exists msg w', call this c w = Throws (TaskValidationError msg) w')
   <-> invalid_argument (clock (ticks w)) c) /\
  (forall b w', call this c w = Returns b w' -> b = this).
Proof.
  intros Ho.
  destruct (call_cases this c w) as [(Hinv & msg & n & E & _)|[Hv _]].
  - rewrite E. split; [|split].
    + split; [intros (b & w' & H); discriminate H|intros Hn; contradiction].
    + split; [intros _; exact Hinv|intros _; eauto].
    + intros b w' H. discriminate H.
  - rewrite (call_returns this c w o Ho Hv). split; [|split].
    + split; [intros _; exact Hv|intros _; eauto].
    + split; [intros (msg & w' & H); discriminate H|intros Hi; contradiction].
    + intros b w' [= <- _]. reflexivity.
Qed.

Lemma call_returns_inv
  (this : TaskBuilder) (c : WithCall) (w : World) (b : TaskBuilder) (w' : World) :
  call this c w = Returns b w' ->
  b = this /\
  exists o,
    heap w !! task this = Some o /\
    w' = mkWorld (<[task this := store c o]> (heap w))
                 (ticks w + clock_reads c) (uuids w).
Proof.
  intros H.
  destruct (call_cases this c w) as [(_ & msg & n & E & _)|[Hv E]];
    [congruence|].
  destruct (heap w !! task this) as [o|] eqn:Ho.
  - rewrite (call_returns this c w o Ho Hv) in H. injection H as <- <-.
    split; [reflexivity|]. exists o. split; reflexivity.
  - rewrite E, bind_eq, assign_stuck in H by exact Ho. discriminate H.
Qed.

(** X2. A [with*] call that returns has written the one property of its
    field and nothing else: the draft shows the argument, agrees with the
    former draft on every other property, [updatedAt] included, and
    every other object is as it was. *)
Theorem with_changes_only_its_field
  (this : TaskBuilder) (c : WithCall) (w : World) (b : TaskBuilder) (w' : World) :
  call this c w = Returns b w' ->
  uuids w' = uuids w /\
  (forall l, l <> task this -> heap w' !! l = heap w !! l) /\
  exists o o',
    heap w !! task this = Some o /\
    heap w' !! task this = Some o' /\
    reflects o' c /\
    unchanged_outside (field_of c) o o'.
Proof.
  intros H. apply call_returns_inv in H as (_ & o & Ho & ->). simpl.
  split; [reflexivity|]. split.
  - intros l Hl. apply lookup_insert_ne. intros E'. now apply Hl.
  - exists o, (store c o). split; [exact Ho|].
    split; [apply lookup_insert_eq|].
    split; [apply reflects_store|apply store_unchanged_outside].
Qed.

(** X3. Two [with*] calls on different fields can be made in either
    order: when both orders are valid, the two chains leave the same
    world. *)
Theorem with_calls_commute
  (this : TaskBuilder) (c1 c2 : WithCall) (w : World) (o : Task.t) :
  heap w !! task this = Some o ->
  field_of c1 <> field_of c2 ->
  valid_arguments (ticks w) [c1; c2] ->
  valid_arguments (ticks w) [c2; c1] ->
  chain this [c1; c2] w = chain this [c2; c1] w /\
  exists w', chain this [c1; c2] w = Returns this w'.
Proof.
  intros Ho Hne (H1 & H2 & _) (H2' & H1' & _).
  assert (E12 : chain this [c1; c2] w
                = Returns this
                    (mkWorld (<[task this := store c2 (store c1 o)]> (heap w))
                             (ticks w + clock_reads c1 + clock_reads c2)
                             (uuids w))).
  { simpl. rewrite bind_eq, (call_returns this c1 w o Ho H1), bind_eq.
    erewrite call_returns by (simpl; first [apply lookup_insert_eq|exact H2]).
    simpl. now rewrite insert_insert_eq. }
  assert (E21 : chain this [c2; c1] w
                = Returns this
                    (mkWorld (<[task this := store c1 (store c2 o)]> (heap w))
                             (ticks w + clock_reads c2 + clock_reads c1)
                             (uuids w))).
  { simpl. rewrite bind_eq, (call_returns this c2 w o Ho H2'), bind_eq.
    erewrite call_returns by (simpl; first [apply lookup_insert_eq|exact H1']).
    simpl. now rewrite insert_insert_eq. }
  split; [|eauto].
  rewrite E12, E21, (store_comm c1 c2 o Hne).
  do 2 f_equal. lia.
Qed.

(** X4. A second [with*] call on the same field replaces what the first
    wrote and leaves no trace of it: after the two calls the heap is what
    the second call alone would have left. *)
Theorem with_call_overwrites
  (this : TaskBuilder) (c1 c2 : WithCall) (w : World) (o : Task.t) :
  heap w !! task this = Some o ->
  field_of c1 = field_of c2 ->
  valid_arguments (ticks w) [c1; c2] ->
  exists w',
    chain this [c1; c2] w = Returns this w' /\
    heap w' = <[task this := store c2 o]> (heap w).
Proof.
  intros Ho Heq (H1 & H2 & _).
  eexists. split.
  - simpl. rewrite bind_eq, (call_returns this c1 w o Ho H1), bind_eq.
    erewrite call_returns by (simpl; first [apply lookup_insert_eq|exact H2]).
    reflexivity.
  - simpl. now rewrite insert_insert_eq, (store_overwrites c1 c2 o Heq).
Qed.

(** X5. [validateTags] reports the first tag of the array that fails a
    check: when the tags before it are all acceptable, the outcome is the
    error of that tag, whatever follows it. *)
Theorem validateTags_first_failure
  (good : list Tag.t) (bad : Tag.t) (rest : list Tag.t) (w : World) :
  Forall tag_ok good ->
  ~ tag_ok bad ->
  validateTags (good ++ bad :: rest) w = validateTag bad w /\
  exists msg, validateTag bad w = Throws (TaskValidationError msg) w.
Proof.
  intros Hgood Hbad.
  destruct (validateTag_cases bad w) as [[Hok _]|[_ [msg E]]];
    [contradiction|].
  split; [|eauto].
  induction Hgood as [|tag good Hok _ IH]; simpl.
  - rewrite bind_eq, E. reflexivity.
  - rewrite bind_eq.
    destruct (validateTag_cases tag w) as [[_ ->]|[Hn _]];
      [exact IH|contradiction].
Qed.

(** X6. The emptiness check of a title comes first: a title that is
    empty after trimming is reported as empty however long it is, and
    only a title with some text can be reported as too long. *)
Theorem withTitle_messages
  (this : TaskBuilder) (title : jsstring) (w : World) :
  (trim title = [] ->
   withTitle this title w
   = Throws (TaskValidationError "Title cannot be empty") w) /\
  (trim title <> [] -> (100 < length title)%nat ->
   withTitle this title w
   = Throws (TaskValidationError "Title must not exceed 100 characters") w).
Proof.
  unfold withTitle, validateTitle. rewrite bind_eq. split.
  - intros E. apply truthy_false in E. now rewrite E.
  - intros Hne Hlen. apply truthy_true in Hne. rewrite Hne. simpl.
    destruct (Nat.ltb_spec 100 (length title)); [reflexivity|lia].
Qed.

(** X7. [withDueDate] rejects an invalid date without reading the clock;
    otherwise it reads the clock once, rejects a date before that reading
    and accepts any other, the reading itself included, storing the date
    as given. *)
Theorem withDueDate_cases
  (this : TaskBuilder) (date : Date) (w : World) (o : Task.t) :
  heap w !! task this = Some o ->
  match date with
  | None =>
      withDueDate this date w = Throws (TaskValidationError "Invalid due date") w
  | Some t =>
      if t <? clock (ticks w) then
        withDueDate this date w
        = Throws (TaskValidationError "Due date cannot be in the past")
                 (mkWorld (heap w) (S (ticks w)) (uuids w))
      else
        withDueDate this date w
        = Returns this
            (mkWorld (<[task this := Task.set_dueDate (Some date) o]> (heap w))
                     (S (ticks w)) (uuids w))
  end.
Proof.
  intros Ho. unfold withDueDate, validateDueDate.
  destruct date as [t|]; [|reflexivity].
  rewrite !bind_eq. simpl.
  destruct (t <? clock (ticks w)); [reflexivity|].
  simpl. rewrite bind_eq.
  erewrite assign_returns by (simpl; exact Ho). reflexivity.
Qed.

Lemma attempts_preserves (P : Task.t -> Prop) (this : TaskBuilder) :
  (forall c o, P o -> P (store c o)) ->
  forall (cs : list WithCall) (w : World) (o : Task.t),
    heap w !! task this = Some o -> P o ->
    exists w' o',
      attempts this cs w = Returns tt w' /\
      heap w' !! task this = Some o' /\ P o' /\
      (forall l, l <> task this -> heap w' !! l = heap w !! l) /\
      uuids w' = uuids w.
Proof.
  intros HP. induction cs as [|c cs IH]; intros w o Ho Hp; simpl.
  - exists w, o. split; [reflexivity|]. split; [exact Ho|].
    split; [exact Hp|]. split; [reflexivity|reflexivity].
  - rewrite bind_eq. unfold try_catch.
    destruct (call_cases this c w) as [(_ & msg & n & -> & _)|[Hv _]].
    + destruct (IH (mkWorld (heap w) n (uuids w)) o Ho Hp)
        as (w' & o' & E & Ho' & Hp' & Hf & Hu).
      exists w', o'. split; [exact E|]. split; [exact Ho'|].
      split; [exact Hp'|]. split; [exact Hf|exact Hu].
    + rewrite (call_returns this c w o Ho Hv).
      destruct (IH (mkWorld (<[task this := store c o]> (heap w))
                            (ticks w + clock_reads c) (uuids w))
                   (store c o) (lookup_insert_eq _ _ _) (HP c o Hp))
        as (w' & o' & E & Ho' & Hp' & Hf & Hu).
      exists w', o'. split; [exact E|]. split; [exact Ho'|].
      split; [exact Hp'|]. split; [|exact Hu].
      intros l Hl. rewrite (Hf l Hl). simpl.
      apply lookup_insert_ne. intros E'. now apply Hl.
Qed.

(** X8. No [with*] call touches what the constructor set: whatever calls
    were attempted before it, a task that [build] returns has status
    TODO, the id generated and the creator id given at construction, and
    the two clock readings of the construction as [createdAt] and
    [updatedAt]. *)
Theorem built_task_origin
  (creatorId : jsstring) (cs : list WithCall) (w : World) (t : loc) (w' : World) :
  (b <- TaskBuilder_new creatorId ;; attempts b cs ;;; build b) w
  = Returns t w' ->
  exists o,
    heap w' !! t = Some o /\
    Task.status o = Some (TaskStatus_value TODO) /\
    Task.id o = Some (TaskId.mk (randomUUID (uuids w))) /\
    Task.creatorId o = Some creatorId /\
    Task.createdAt o = Some (Some (clock (ticks w))) /\
    Task.updatedAt o = Some (Some (clock (S (ticks w)))).
Proof.
  intros H. rewrite bind_eq, TaskBuilder_new_returns, bind_eq in H.
  match type of H with
  | context [attempts ?b cs ?w1] =>
      destruct (attempts_preserves
                  (fun o => Task.status o = Some (TaskStatus_value TODO) /\
                            Task.id o
                            = Some (TaskId.mk (randomUUID (uuids w))) /\
                            Task.creatorId o = Some creatorId /\
                            Task.createdAt o = Some (Some (clock (ticks w))) /\
                            Task.updatedAt o
                            = Some (Some (clock (S (ticks w)))))
                  b) with (cs := cs) (w := w1)
                          (o := Task.mk (Some (TaskId.mk (randomUUID (uuids w))))
                                  None None (Some (TaskStatus_value TODO))
                                  (Some (TaskPriority_value MEDIUM)) None None
                                  (Some (Some (clock (ticks w))))
                                  (Some (Some (clock (S (ticks w))))) None
                                  (Some creatorId))
        as (w2 & o2 & E2 & Ho2 & Hp2 & _)
  end.
  - intros c o Hp. now destruct c.
  - simpl. apply lookup_insert_eq.
  - simpl. now repeat split.
  - rewrite E2 in H.
    match type of H with
    | context [build ?b w2] => destruct (build b w2) as [t' w3| |] eqn:Eb
    end; try discriminate H.
    injection H as <- <-.
    apply build_returns_inv in Eb as (-> & -> & _).
    exists o2. split; [exact Ho2|exact Hp2].
Qed.

(** X9. A failed [build] can be retried: on a new builder with a non-empty
    creator id [build] throws for the missing title, and once a valid
    title is set on the same builder [build] returns the draft, which
    has that title. *)
Theorem build_after_title
  (creatorId title : jsstring) (w : World) :
  creatorId <> [] ->
  ~ (trim title = [] \/ (100 < length title)%nat) ->
  (exists w1,
     (b <- TaskBuilder_new creatorId ;; build b) w
     = Throws (TaskValidationError "Title is required") w1) /\
  (exists t w2 o,
     (b <- TaskBuilder_new creatorId ;;
      try_catch (build b) ;;;
      withTitle b title ;;;
      build b) w = Returns t w2 /\
     heap w2 !! t = Some o /\
     Task.title o = Some title).
Proof.
  intros Hc Hv. split.
  - rewrite bind_eq, TaskBuilder_new_returns, build_cases. simpl.
    rewrite lookup_insert_eq. simpl. eauto.
  - rewrite bind_eq, TaskBuilder_new_returns, bind_eq.
    unfold try_catch. rewrite build_cases. simpl.
    rewrite lookup_insert_eq. simpl. rewrite bind_eq.
    match goal with
    | |- context [withTitle ?b title ?W] =>
        change (withTitle b title W) with (call b (WithTitle title) W);
        erewrite (call_returns b (WithTitle title) W)
          by (simpl; first [apply lookup_insert_eq | exact Hv])
    end.
    rewrite build_cases. simpl. rewrite lookup_insert_eq. simpl.
    assert (Ht : truthy title = true)
      by (apply truthy_true, trim_nonempty; tauto).
    assert (Hc' : truthy creatorId = true) by now apply truthy_true.
    rewrite Ht, Hc'. simpl.
    do 3 eexists. split; [reflexivity|].
    split; [simpl; apply lookup_insert_eq|reflexivity].
Qed.

(** X10. Builders do not share drafts: a builder constructed while
    another builder's draft exists gets a draft of its own, and neither
    its construction nor any calls attempted on it change the other
    draft. *)
Theorem builders_are_independent
  (this : TaskBuilder) (o : Task.t) (creatorId : jsstring)
  (cs : list WithCall) (w : World) :
  heap w !! task this = Some o ->
  exists b w',
    (b <- TaskBuilder_new creatorId ;; attempts b cs ;;; ret b) w
    = Returns b w' /\
    task b <> task this /\
    heap w' !! task this = Some o.
Proof.
  intros Ho. rewrite bind_eq, TaskBuilder_new_returns, bind_eq.
  assert (Hne : task this <> fresh (dom (heap w)))
    by (eapply fresh_not_allocated; exact Ho).
  match goal with
  | |- context [attempts ?b cs ?w1] =>
      destruct (attempts_preserves (fun _ => True) b (fun _ _ _ => I) cs w1 _
                  (lookup_insert_eq _ _ _) I)
        as (w2 & o2 & E2 & _ & _ & Hf & _)
  end.
  rewrite E2. do 2 eexists. split; [reflexivity|].
  simpl. split; [intros E; now apply Hne|].
  rewrite (Hf _ Hne). simpl. rewrite lookup_insert_ne; [exact Ho|].
  intros E. now apply Hne.
Qed.

(** ** What no call of the interface changes *)

Lemma same_identity_refl (o : Task.t) : same_identity o o.
Proof. now repeat split. Qed.

Lemma store_same_identity (c : WithCall) (o : Task.t) :
  same_identity o (store c o).
Proof. now destruct c. Qed.

Lemma update_same_identity (u : Updates) (d : option Date) (o : Task.t) :
  declared_keys_only u ->
  same_identity o (Task.set_updatedAt d (Object_assign u o)).
Proof.
  intros (Ki & Kc & Kcr).
  destruct (Object_assign_fields u o)
    as (Hi & _ & _ & _ & _ & _ & _ & Hc & _ & _ & Hcr).
  unfold same_identity. simpl. now rewrite Hi, Hc, Hcr, Ki, Kc, Kcr.
Qed.

Lemma same_identity_trans (o1 o2 o3 : Task.t) :
  same_identity o1 o2 -> same_identity o2 o3 -> same_identity o1 o3.
Proof.
  intros (Hi1 & Hc1 & Hcr1) (Hi2 & Hc2 & Hcr2).
  unfold same_identity. now rewrite Hi2, Hc2, Hcr2.
Qed.

Lemma insert_keeps_identity
  (h : gmap nat Task.t) (l0 : loc) (o0 o0' : Task.t) :
  h !! l0 = Some o0 -> same_identity o0 o0' ->
  forall l o, h !! l = Some o ->
    exists o', <[l0 := o0']> h !! l = Some o' /\ same_identity o o'.
Proof.
  intros H0 Hs l o Ho.
  destruct (decide (l0 = l)) as [<-|Hne].
  - rewrite lookup_insert_eq. exists o0'. split; [reflexivity|]. congruence.
  - rewrite lookup_insert_ne by exact Hne. exists o.
    split; [exact Ho|apply same_identity_refl].
Qed.

Lemma alloc_keeps_identity (w : World) (o0 : Task.t) :
  forall l o, heap w !! l = Some o ->
    exists o', <[fresh (dom (heap w)) := o0]> (heap w) !! l = Some o' /\
               same_identity o o'.
Proof.
  intros l o Ho. exists o. split; [|apply same_identity_refl].
  rewrite lookup_insert_ne; [exact Ho|].
  intros E. symmetry in E. revert E. eapply fresh_not_allocated; exact Ho.
Qed.

Lemma run_op_identity (l : loc) (op : Op) (w w' : World) :
  keeps_identity_of l op ->
  after (run_op op w) = Some w' ->
  (uuids w <= uuids w')%nat /\
  forall o, heap w !! l = Some o ->
    exists o', heap w' !! l = Some o' /\ same_identity o o'.
Proof.
  intros Hkeep.
  destruct op as [creatorId|this c|this|t|this updates]; unfold run_op.
  - rewrite bind_eq, TaskBuilder_new_returns. intros [= <-]. simpl.
    split; [lia|apply alloc_keeps_identity].
  - rewrite bind_eq.
    destruct (call_cases this c w) as [(_ & msg & n & -> & Hn)|[Hv E]].
    + intros [= <-]. simpl. split; [lia|].
      intros o Ho. exists o. split; [exact Ho|apply same_identity_refl].
    + destruct (heap w !! task this) as [o0|] eqn:Ho0.
      * rewrite (call_returns this c w o0 Ho0 Hv). intros [= <-]. simpl.
        split; [lia|].
        apply (insert_keeps_identity _ _ o0); [exact Ho0|].
        apply store_same_identity.
      * rewrite E, bind_eq, assign_stuck by exact Ho0. discriminate.
  - rewrite bind_eq, build_cases.
    destruct (heap w !! task this) as [o0|]; [|discriminate].
    destruct (truthy_opt (Task.title o0)); simpl;
      [destruct (truthy_opt (Task.creatorId o0)); simpl|];
      intros [= <-]; (split; [lia|]);
      intros o Ho; exists o; (split; [exact Ho|apply same_identity_refl]).
  - rewrite bind_eq.
    destruct (heap w !! t) as [o0|] eqn:Ho0.
    + rewrite (TaskEntity_new_returns t w o0 Ho0). intros [= <-]. simpl.
      split; [lia|apply alloc_keeps_identity].
    + unfold TaskEntity_new, deref. rewrite bind_eq, Ho0. discriminate.
  - destruct (heap w !! this) as [o0|] eqn:Ho0.
    + rewrite (update_returns this updates w o0 Ho0). intros [= <-]. simpl.
      split; [lia|].
      destruct Hkeep as [Hother|Hkeys].
      * intros o Ho. exists o. split; [|apply same_identity_refl].
        rewrite lookup_insert_ne; [exact Ho|exact Hother].
      * apply (insert_keeps_identity _ _ o0); [exact Ho0|].
        now apply update_same_identity.
    + rewrite (update_stuck this updates w Ho0). discriminate.
Qed.

Lemma run_ops_identity (l : loc) (ops : list Op) :
  Forall (keeps_identity_of l) ops ->
  forall w w' : World,
    after (run_ops ops w) = Some w' ->
    (uuids w <= uuids w')%nat /\
    forall o, heap w !! l = Some o ->
      exists o', heap w' !! l = Some o' /\ same_identity o o'.
Proof.
  induction 1 as [|op ops Hop _ IH]; intros w w'; simpl.
  - intros [= <-]. split; [lia|].
    intros o Ho. exists o. split; [exact Ho|apply same_identity_refl].
  - rewrite bind_eq. unfold try_catch.
    intros H.
    assert (exists w1, after (run_op op w) = Some w1 /\
                       after (run_ops ops w1) = Some w') as (w1 & E1 & E2).
    { destruct (run_op op w) as [[] w1|e w1|]; try discriminate H;
        exists w1; (split; [reflexivity|exact H]). }
    destruct (run_op_identity l op w w1 Hop E1) as [Hu1 Hk1].
    destruct (IH w1 w' E2) as [Hu2 Hk2].
    split; [lia|].
    intros o Ho.
    destruct (Hk1 o Ho) as (o1 & Ho1 & Hs1).
    destruct (Hk2 o1 Ho1) as (o2 & Ho2 & Hs2).
    exists o2. split; [exact Ho2|].
    exact (same_identity_trans o o1 o2 Hs1 Hs2).
Qed.

(** X11. No call of the builder, no construction of an entity and no
    update that carries only keys its type declares removes a task
    object or changes its [id], [createdAt] or [creatorId]; an update of
    another object does neither, whatever it carries.  An object that
    was there before a program of such calls is still there after it,
    with the three properties it had. *)
Theorem interface_keeps_identity
  (ops : list Op) (w w' : World) (l : loc) (o : Task.t) :
  Forall (keeps_identity_of l) ops ->
  after (run_ops ops w) = Some w' ->
  heap w !! l = Some o ->
  exists o', heap w' !! l = Some o' /\ same_identity o o'.
Proof.
  intros Hkeep Hr Ho.
  destruct (run_ops_identity l ops Hkeep w w' Hr) as [_ Hk].
  exact (Hk o Ho).
Qed.

(** X12. While the id generator never repeats itself, two builders have
    drafts with different ids, whatever calls of the interface were made
    between the two constructions; [update] being a method of entities,
    none of them is an update of the first draft that carries one of the
    three undeclared keys. *)
Theorem constructions_have_distinct_ids
  (c1 c2 : jsstring) (ops : list Op) (w w1 w2 w3 : World)
  (b1 b2 : TaskBuilder) :
  unique_ids ->
  TaskBuilder_new c1 w = Returns b1 w1 ->
  Forall (keeps_identity_of (task b1)) ops ->
  after (run_ops ops w1) = Some w2 ->
  TaskBuilder_new c2 w2 = Returns b2 w3 ->
  exists o1 o2,
    heap w3 !! task b1 = Some o1 /\
    heap w3 !! task b2 = Some o2 /\
    task b1 <> task b2 /\
    Task.id o1 <> Task.id o2.
Proof.
  intros Hinj H1 Hkeep Hops H2.
  rewrite TaskBuilder_new_returns in H1. injection H1 as <- <-.
  rewrite TaskBuilder_new_returns in H2. injection H2 as <- <-.
  simpl in Hkeep.
  destruct (run_ops_identity _ ops Hkeep _ w2 Hops) as [Hu Hk].
  edestruct Hk as (o1 & Ho1 & (Hi & _ & _));
    [simpl; apply lookup_insert_eq|].
  simpl in *.
  assert (Hne : fresh (dom (heap w)) <> fresh (dom (heap w2)))
    by (eapply fresh_not_allocated; exact Ho1).
  exists o1. eexists. split.
  - rewrite lookup_insert_ne; [exact Ho1|]. intros E. now apply Hne.
  - split; [apply lookup_insert_eq|]. split; [exact Hne|].
    rewrite Hi. simpl. intros [= E]. apply Hinj in E. lia.
Qed.

(** ** Further properties of the entity *)

Lemma update_all_returns (this : loc) (us : list Updates) :
  forall (w : World) (o : Task.t),
    heap w !! this = Some o ->
    exists w' o',
      update_all this us w = Returns tt w' /\
      heap w' !! this = Some o' /\
      (Forall declared_keys_only us -> same_identity o o') /\
      ticks w' = (ticks w + length us)%nat /\
      (us <> [] ->
       Task.updatedAt o' = Some (Some (clock (ticks w + length us - 1)))) /\
      (forall l, l <> this -> heap w' !! l = heap w !! l).
Proof.
  induction us as [|u us IH]; intros w o Ho; simpl.
  - exists w, o. split; [reflexivity|]. split; [exact Ho|].
    split; [intros _; apply same_identity_refl|]. split; [lia|].
    split; [intros H; now elim H|reflexivity].
  - rewrite bind_eq, (update_returns this u w o Ho).
    match goal with
    | |- context [update_all this us ?W] =>
        destruct (IH W _ (lookup_insert_eq _ _ _))
          as (w' & o' & E & Ho' & Hid & Ht & Hlast & Hf)
    end.
    exists w', o'. split; [exact E|]. split; [exact Ho'|].
    split.
    { intros Hkeys. apply Forall_cons in Hkeys as [Hu Hus].
      eapply same_identity_trans; [|exact (Hid Hus)].
      now apply update_same_identity. }
    simpl in Ht. split; [lia|]. split.
    + intros _. destruct us as [|u' us'].
      * simpl in E. injection E as <-. simpl in Ho'.
        rewrite lookup_insert_eq in Ho'. injection Ho' as <-. simpl.
        do 3 f_equal. lia.
      * rewrite Hlast by discriminate. simpl. do 3 f_equal. lia.
    + intros l Hl. rewrite (Hf l Hl). simpl.
      apply lookup_insert_ne. intros E'. now apply Hl.
Qed.

(** X13. An entity is a copy: its constructor makes a new object with
    the properties of the task and leaves the task as it was, and
    afterwards no sequence of updates of the entity changes the task and
    no [with*] call of the builder that owns the task changes the
    entity. *)
Theorem TaskEntity_is_a_copy (t : loc) (w : World) (o : Task.t) :
  heap w !! t = Some o ->
  exists e w1,
    TaskEntity_new t w = Returns e w1 /\
    e <> t /\
    heap w1 !! e = Some o /\
    heap w1 !! t = Some o /\
    (forall us, exists w2,
        update_all e us w1 = Returns tt w2 /\ heap w2 !! t = Some o) /\
    (forall c b w2,
        call (mkTaskBuilder t) c w1 = Returns b w2 -> heap w2 !! e = Some o).
Proof.
  intros Ho.
  assert (Hne : t <> fresh (dom (heap w)))
    by (eapply fresh_not_allocated; exact Ho).
  do 2 eexists. split; [apply (TaskEntity_new_returns t w o Ho)|].
  split; [intros E; now apply Hne|].
  split; [simpl; apply lookup_insert_eq|].
  assert (Ht : <[fresh (dom (heap w)) := o]> (heap w) !! t = Some o).
  { rewrite lookup_insert_ne; [exact Ho|]. intros E. now apply Hne. }
  split; [exact Ht|]. split.
  - intros us.
    match goal with
    | |- context [update_all ?e us ?W] =>
        destruct (update_all_returns e us W o (lookup_insert_eq _ _ _))
          as (w2 & o2 & E & _ & _ & _ & _ & Hf)
    end.
    exists w2. split; [exact E|]. rewrite (Hf t Hne). exact Ht.
  - intros c b w2 Hc.
    apply call_returns_inv in Hc as (_ & o0 & _ & ->). simpl.
    rewrite lookup_insert_ne by exact Hne. apply lookup_insert_eq.
Qed.


(** X15. [update] writes exactly the keys it carries: every property
    but [updatedAt] whose key is there takes the value carried, the
    value undefined included, which clears the property, and [id],
    [createdAt] and [creatorId] included, when the argument carries
    them; a property whose key is not there keeps its value;
    [updatedAt] is the clock reading of the call whatever is carried. *)
Theorem update_writes_carried_keys
  (this : loc) (u : Updates) (w : World) (o : Task.t) :
  heap w !! this = Some o ->
  exists w' o',
    update this u w = Returns tt w' /\
    heap w' !! this = Some o' /\
    Task.id o' = carried (u_id u) (Task.id o) /\
    Task.title o' = carried (u_title u) (Task.title o) /\
    Task.description o' = carried (u_description u) (Task.description o) /\
    Task.status o' = carried (u_status u) (Task.status o) /\
    Task.priority o' = carried (u_priority u) (Task.priority o) /\
    Task.dueDate o' = carried (u_dueDate u) (Task.dueDate o) /\
    Task.tags o' = carried (u_tags u) (Task.tags o) /\
    Task.createdAt o' = carried (u_createdAt u) (Task.createdAt o) /\
    Task.updatedAt o' = Some (Some (clock (ticks w))) /\
    Task.assigneeId o' = carried (u_assigneeId u) (Task.assigneeId o) /\
    Task.creatorId o' = carried (u_creatorId u) (Task.creatorId o).
Proof.
  intros Ho. do 2 eexists. split; [apply (update_returns _ _ _ o Ho)|].
  split; [simpl; apply lookup_insert_eq|].
  destruct (Object_assign_fields u o)
    as (Hi & Ht & Hd & Hs & Hp & Hdd & Htg & Hc & _ & Ha & Hcr).
  simpl. now repeat split.
Qed.




(** ** The components *)

Lemma dispatch_Submit (s : Container) (w : World) :
  dispatch Submit s w
  = Returns
      (mkContainer
         (mkForm [] (form_priority (form s)))
         (tasks s ++ [Task.mk (Some (TaskId.mk (randomUUID (uuids w))))
                        (Some (form_title (form s))) None
                        (Some (TaskStatus_value TODO))
                        (Some (form_priority (form s)))
                        None None (Some (Some (clock (ticks w))))
                        (Some (Some (clock (S (ticks w))))) None
                        (Some (js "user-1"))]))
      (mkWorld (heap w) (S (S (ticks w))) (S (uuids w))).
Proof. reflexivity. Qed.

(** X17. A submit is not validated: whatever the form holds, a title or
    a priority the builder would reject included, it appends one task
    with that title and that priority after the tasks already there,
    empties the title of the form and keeps its priority. *)
Theorem submit_appends_unvalidated (s : Container) (w : World) :
  exists o w',
    dispatch Submit s w
    = Returns (mkContainer (mkForm [] (form_priority (form s)))
                           (tasks s ++ [o])) w' /\
    Task.title o = Some (form_title (form s)) /\
    Task.priority o = Some (form_priority (form s)) /\
    Task.id o = Some (TaskId.mk (randomUUID (uuids w))) /\
    container_task o.
Proof.
  do 2 eexists. split; [apply dispatch_Submit|].
  simpl. repeat split. now exists (form_title (form s)).
Qed.

Lemma dispatch_all_tasks (evs : list Event) :
  forall (s : Container) (w : World),
  exists s' w' new,
    dispatch_all evs s w = Returns s' w' /\
    tasks s' = tasks s ++ new /\
    length new = submits evs /\
    Forall container_task new /\
    map Task.id new
    = map (fun k => Some (TaskId.mk (randomUUID k)))
          (seq (uuids w) (submits evs)) /\
    heap w' = heap w /\
    ticks w' = (ticks w + 2 * submits evs)%nat /\
    uuids w' = (uuids w + submits evs)%nat.
Proof.
  induction evs as [|ev evs IH]; intros s w; simpl.
  - exists s, w, []. rewrite app_nil_r. simpl.
    repeat split; first [reflexivity | constructor | lia].
  - rewrite bind_eq. destruct ev as [value|value|].
    + simpl.
      destruct (IH (mkContainer (mkForm value (form_priority (form s))) (tasks s)) w)
        as (s' & w' & new & E & H).
      exists s', w', new. split; [exact E|exact H].
    + simpl.
      destruct (IH (mkContainer (mkForm (form_title (form s)) value) (tasks s)) w)
        as (s' & w' & new & E & H).
      exists s', w', new. split; [exact E|exact H].
    + rewrite dispatch_Submit.
      match goal with
      | |- context [dispatch_all evs ?S ?W] =>
          destruct (IH S W)
            as (s' & w' & new & E & Ht & Hl & Hc & Hids & Hh & Hti & Hu)
      end.
      simpl in *.
      eexists s', w', (_ :: new). split; [exact E|].
      split; [rewrite Ht, <- app_assoc; reflexivity|].
      split; [simpl; now rewrite Hl|].
      split.
      { constructor; [|exact Hc]. unfold container_task. simpl.
        repeat split. now exists (form_title (form s)). }
      split; [simpl; now rewrite Hids|].
      split; [exact Hh|]. split; lia.
Qed.

(** X18. The container only ever appends: any sequence of events returns
    and none throws, the tasks there before stay first and in order, one
    task is added per submit, each with status TODO, the creator id
    "user-1" and no optional property but the title, two clock readings
    and one id are consumed per submit, and no task object of the heap
    is touched. *)
Theorem container_appends_one_task_per_submit
  (evs : list Event) (s : Container) (w : World) :
  exists s' w' new,
    dispatch_all evs s w = Returns s' w' /\
    tasks s' = tasks s ++ new /\
    length new = submits evs /\
    Forall container_task new /\
    heap w' = heap w /\
    ticks w' = (ticks w + 2 * submits evs)%nat /\
    uuids w' = (uuids w + submits evs)%nat.
Proof.
  destruct (dispatch_all_tasks evs s w)
    as (s' & w' & new & E & Ht & Hl & Hc & _ & Hh & Hti & Hu).
  exists s', w', new. split; [exact E|]. split; [exact Ht|].
  split; [exact Hl|]. split; [exact Hc|]. split; [exact Hh|].
  split; [exact Hti|exact Hu].
Qed.

Lemma NoDup_generated (k n : nat) :
  unique_ids -> NoDup (map randomUUID (seq k n)).
Proof.
  intros Hinj. revert k. induction n as [|n IH]; intros k; simpl.
  - constructor.
  - constructor; [|apply IH].
    intros Hin. apply list_elem_of_In, in_map_iff in Hin as (x & E & Hx).
    apply Hinj in E. apply in_seq in Hx. lia.
Qed.

Lemma TaskList_renders (ts : list Task.t) :
  forall ks : list nat,
    map Task.id ts = map (fun k => Some (TaskId.mk (randomUUID k))) ks ->
    exists items,
      TaskList ts = Some items /\
      map item_key items = map randomUUID ks /\
      length items = length ts.
Proof.
  induction ts as [|task ts IH]; intros ks Hids; simpl.
  - destruct ks; [|discriminate Hids]. exists []. now repeat split.
  - destruct ks as [|k ks]; [discriminate Hids|].
    simpl in Hids. injection Hids as Hid Hrest.
    destruct (IH ks Hrest) as (items & E & Hkeys & Hlen).
    unfold TaskList_item. rewrite Hid, E.
    eexists. split; [reflexivity|]. simpl.
    split; [now rewrite Hkeys|now rewrite Hlen].
Qed.

(** X19. While the id generator never repeats itself, [TaskList] renders
    the tasks of the container, one list item per submit handled since
    the container was mounted, and the keys of the items are pairwise
    different. *)
Theorem TaskList_keys_distinct
  (evs : list Event) (w : World) (s' : Container) (w' : World) :
  unique_ids ->
  dispatch_all evs Container_initial w = Returns s' w' ->
  exists items,
    TaskList (tasks s') = Some items /\
    NoDup (map item_key items) /\
    length items = submits evs.
Proof.
  intros Hinj H.
  destruct (dispatch_all_tasks evs Container_initial w)
    as (s1 & w1 & new & E & Ht & Hl & _ & Hids & _).
  rewrite E in H. injection H as <- <-.
  simpl in Ht. rewrite Ht.
  destruct (TaskList_renders new _ Hids) as (items & Er & Hkeys & Hlen).
  exists items. split; [exact Er|].
  split; [rewrite Hkeys; now apply NoDup_generated|].
  now rewrite Hlen.
Qed.

End Program.

(** ** The theorems at concrete inputs *)

Lemma ticking_clock_monotone : monotone_clock ticking_clock.
Proof. unfold monotone_clock, ticking_clock. intros i j Hij. lia. Qed.

(** C1, as stated, fails: after [build] returned a task titled "A", a
    further [withTitle("B")] on the same builder changes the title of the
    task already returned. *)
Lemma build_is_not_a_snapshot :
  exists b t w1 w2 o1 o2,
    (b <- TaskBuilder_new frozen_clock uuid_oracle (js "u1") ;;
     withTitle b (js "A") ;;;
     t <- build b ;;
     ret (b, t)) empty_world = Returns (b, t) w1 /\
    withTitle b (js "B") w1 = Returns b w2 /\
    heap w1 !! t = Some o1 /\
    heap w2 !! t = Some o2 /\
    Task.title o1 = Some (js "A") /\
    Task.title o2 = Some (js "B") /\
    o1 <> o2.
Proof.
  do 6 eexists.
  split; [vm_compute; reflexivity|].
  split; [vm_compute; reflexivity|].
  split; [vm_compute; reflexivity|].
  split; [vm_compute; reflexivity|].
  split; [reflexivity|]. split; [reflexivity|]. discriminate.
Qed.

(** The builder of the example world: [build] succeeds on it and hands
    out reference 0, its draft. *)
Lemma build_returns_the_draft_witness :
  build (mkTaskBuilder 0) example_world = Returns 0%nat example_world /\
  (0%nat = task (mkTaskBuilder 0) /\ example_world = example_world /\
   (forall c b w2,
      call frozen_clock (mkTaskBuilder 0) c example_world = Returns b w2 ->
      exists o, heap w2 !! 0%nat = Some o /\ reflects o c) /\
   (forall f w2,
      assign 0%nat f example_world = Returns tt w2 ->
      exists o, heap example_world !! task (mkTaskBuilder 0) = Some o /\
                heap w2 !! task (mkTaskBuilder 0) = Some (f o))).
Proof.
  split; [vm_compute; reflexivity|].
  apply (build_returns_the_draft frozen_clock (mkTaskBuilder 0) example_world).
  vm_compute. reflexivity.
Defined.

(** C2, as stated, fails: an entity made from a built task and then
    updated with [{title: ""}] has an empty title. *)
Lemma update_breaks_field_constraints :
  exists t e w' oe,
    build_entity frozen_clock uuid_oracle (js "u1") [WithTitle (js "A")]
      [title_only (Some [])]
      empty_world = Returns (t, e) w' /\
    heap w' !! e = Some oe /\
    ~ field_constraints oe.
Proof.
  do 4 eexists.
  split; [vm_compute; reflexivity|].
  split; [vm_compute; reflexivity|].
  intros ((s & E & Hl) & _). simpl in E. injection E as <-.
  vm_compute in Hl. lia.
Qed.

(** A builder driven with a rejected priority among its calls, built,
    wrapped and marked DONE. *)
Lemma built_task_field_constraints_witness :
  Forall updates_ok [status_only DONE] /\
  exists t e w',
    build_entity ticking_clock uuid_oracle (js "u1")
      [WithTitle (js "Ship release"); WithPriority (js "bogus");
       WithPriority (js "HIGH")]
      [status_only DONE] empty_world = Returns (t, e) w' /\
    exists ot oe,
      heap w' !! t = Some ot /\ field_constraints ot /\
      heap w' !! e = Some oe /\ field_constraints oe.
Proof.
  assert (Hus : Forall updates_ok [status_only DONE]).
  { constructor; [|constructor].
    unfold updates_ok, status_only; simpl.
    repeat split; intros v E; try discriminate E.
    injection E as <-. eexists. split; [reflexivity|].
    right. right. right. left. reflexivity. }
  split; [exact Hus|].
  do 3 eexists. split; [vm_compute; reflexivity|].
  apply (built_task_field_constraints ticking_clock uuid_oracle (js "u1")
           [WithTitle (js "Ship release"); WithPriority (js "bogus");
            WithPriority (js "HIGH")]
           [status_only DONE] empty_world _ _ _ Hus).
  vm_compute. reflexivity.
Defined.

(** C3, as stated, fails: an update made in the millisecond of the
    previous modification leaves [updatedAt] equal to what it was. *)
Lemma updatedAt_not_strictly_greater :
  exists t e w1 o w2 o',
    build_entity frozen_clock uuid_oracle (js "u1") [WithTitle (js "A")] []
      empty_world = Returns (t, e) w1 /\
    heap w1 !! e = Some o /\
    update frozen_clock e (status_only DONE) w1 = Returns tt w2 /\
    heap w2 !! e = Some o' /\
    Task.status o' = Some (TaskStatus_value DONE) /\
    ~ Date_lt (Task.updatedAt o) (Task.updatedAt o').
Proof.
  do 6 eexists.
  split; [vm_compute; reflexivity|].
  split; [vm_compute; reflexivity|].
  split; [vm_compute; reflexivity|].
  split; [vm_compute; reflexivity|].
  split; [reflexivity|].
  unfold Date_lt. simpl. lia.
Qed.

(** The example task marked DONE two clock readings later. *)
Lemma update_status_DONE_witness :
  heap example_world !! 0%nat = Some example_task /\
  exists w' o',
    update ticking_clock 0 (status_only DONE) example_world = Returns tt w' /\
    heap w' !! 0%nat = Some o' /\
    Task.status o' = Some (TaskStatus_value DONE) /\
    Task.updatedAt o' = Some (Some (ticking_clock 2)) /\
    Task.title o' = Task.title example_task /\
    Date_lt (Task.updatedAt example_task) (Task.updatedAt o').
Proof.
  assert (Ho : heap example_world !! 0%nat = Some example_task)
    by reflexivity.
  split; [exact Ho|].
  destruct (update_status_DONE ticking_clock 0 example_world example_task Ho)
    as (w' & o' & E & Ho' & Hs & Hu & _ & _ & _ & Ht & _ & _ & _ & _ & _ & _ & Hlt).
  exists w', o'. repeat (split; [assumption|]).
  apply (Hlt 1700000000000); [reflexivity|].
  unfold ticking_clock. simpl. lia.
Defined.

(** A chain that sets the priority twice and the title twice: the task
    shows the later priority. *)
Lemma with_build_round_trip_witness :
  heap example_world !! task (mkTaskBuilder 0) = Some example_task /\
  valid_arguments ticking_clock (ticks example_world)
    ([WithTitle (js "Draft"); WithPriority (js "LOW")]
     ++ WithPriority (js "HIGH") :: [WithTitle (js " Ship release ")]) /\
  Forall (fun c' => field_of c' <> field_of (WithPriority (js "HIGH")))
    [WithTitle (js " Ship release ")] /\
  exists w1,
    chain ticking_clock (mkTaskBuilder 0)
      ([WithTitle (js "Draft"); WithPriority (js "LOW")]
       ++ WithPriority (js "HIGH") :: [WithTitle (js " Ship release ")])
      example_world = Returns (mkTaskBuilder 0) w1 /\
    forall t w2,
      build (mkTaskBuilder 0) w1 = Returns t w2 ->
      exists o', heap w2 !! t = Some o' /\ Task.priority o' = Some (js "HIGH").
Proof.
  assert (Ho : heap example_world !! task (mkTaskBuilder 0) = Some example_task)
    by reflexivity.
  assert (Hv : valid_arguments ticking_clock (ticks example_world)
                 ([WithTitle (js "Draft"); WithPriority (js "LOW")]
                  ++ WithPriority (js "HIGH")
                  :: [WithTitle (js " Ship release ")])).
  { simpl. repeat split.
    - intros [H|H]; [discriminate H|lia].
    - intros H. apply H. left. reflexivity.
    - intros H. apply H. right. right. left. reflexivity.
    - intros [H|H]; [discriminate H|lia]. }
  assert (Hl : Forall (fun c' => field_of c' <> field_of (WithPriority (js "HIGH")))
                 [WithTitle (js " Ship release ")]).
  { constructor; [discriminate|constructor]. }
  split; [exact Ho|]. split; [exact Hv|]. split; [exact Hl|].
  exact (with_build_round_trip ticking_clock (mkTaskBuilder 0) example_world
           example_task _ _ _ Ho Hv Hl).
Defined.

(** C5, as stated, fails: a title of one letter followed by a hundred
    spaces has length 1 after trimming, and [withTitle] rejects it. *)
Lemma withTitle_rejects_padded_title :
  ~ (trim (js "a" ++ repeat 32%N 100) = [] \/
     (100 < length (trim (js "a" ++ repeat 32%N 100)))%nat) /\
  withTitle (mkTaskBuilder 0) (js "a" ++ repeat 32%N 100) example_world
  = Throws (TaskValidationError "Title must not exceed 100 characters")
           example_world.
Proof.
  split; [|vm_compute; reflexivity].
  assert (E : trim (js "a" ++ repeat 32%N 100) = js "a")
    by (vm_compute; reflexivity).
  rewrite E. intros [H|H]; [discriminate H|simpl in H; lia].
Qed.

(** A padded title within the limit is stored with its padding. *)
Lemma withTitle_throws_iff_witness :
  heap example_world !! task (mkTaskBuilder 0) = Some example_task /\
  exists w',
    withTitle (mkTaskBuilder 0) (js " Valid ") example_world
    = Returns (mkTaskBuilder 0) w' /\
    heap w' !! 0%nat = Some (Task.set_title (Some (js " Valid ")) example_task).
Proof.
  assert (Ho : heap example_world !! task (mkTaskBuilder 0) = Some example_task)
    by reflexivity.
  split; [exact Ho|].
  apply (withTitle_throws_iff (mkTaskBuilder 0) (js " Valid ") example_world
           example_task Ho).
  intros [H|H]; [discriminate H|simpl in H; lia].
Defined.

(** The example draft builds; a builder made with the empty creator id
    does not. *)
Lemma build_throws_iff_witness :
  heap example_world !! task (mkTaskBuilder 0) = Some example_task /\
  ~ (exists msg w',
       build (mkTaskBuilder 0) example_world
       = Throws (TaskValidationError msg) w') /\
  exists w',
    (b <- TaskBuilder_new frozen_clock uuid_oracle [] ;;
     withTitle b (js "Valid") ;;; build b) empty_world
    = Throws (TaskValidationError "Creator ID is required") w'.
Proof.
  assert (Ho : heap example_world !! task (mkTaskBuilder 0) = Some example_task)
    by reflexivity.
  split; [exact Ho|].
  destruct (build_throws_iff frozen_clock uuid_oracle (mkTaskBuilder 0)
              example_world example_task (js "Valid") empty_world Ho)
    as (Hiff & _ & Hcreator).
  split.
  - intros Hthrows. apply Hiff in Hthrows.
    destruct Hthrows as [H|[H|[H|H]]]; discriminate H.
  - apply Hcreator. intros [H|H]; [discriminate H|simpl in H; lia].
Defined.

(** A tag whose name has 51 characters. *)
Lemma with_invalid_argument_throws_witness :
  invalid_argument (frozen_clock (ticks example_world))
    (WithTags [Tag.mk (js "1") (repeat 120%N 51) None]) /\
  exists msg w',
    call frozen_clock (mkTaskBuilder 0)
      (WithTags [Tag.mk (js "1") (repeat 120%N 51) None]) example_world
    = Throws (TaskValidationError msg) w' /\
    heap w' = heap example_world.
Proof.
  assert (Hinv : invalid_argument (frozen_clock (ticks example_world))
                   (WithTags [Tag.mk (js "1") (repeat 120%N 51) None])).
  { apply Exists_cons_hd. intros (_ & _ & H). simpl in H. lia. }
  split; [exact Hinv|].
  exact (with_invalid_argument_throws frozen_clock (mkTaskBuilder 0) _
           example_world Hinv).
Defined.

(** C8, as stated, fails: when the clock advances between the two
    readings the constructor makes, [createdAt] and [updatedAt] differ. *)
Lemma createdAt_differs_from_updatedAt :
  exists b w' o,
    TaskBuilder_new ticking_clock uuid_oracle (js "u1") empty_world
    = Returns b w' /\
    heap w' !! task b = Some o /\
    Task.createdAt o <> Task.updatedAt o.
Proof.
  do 3 eexists.
  split; [vm_compute; reflexivity|].
  split; [vm_compute; reflexivity|].
  simpl. discriminate.
Qed.

(** Construction within one millisecond. *)
Lemma TaskBuilder_new_draft_witness :
  frozen_clock (ticks empty_world) = frozen_clock (S (ticks empty_world)) /\
  exists this w' o,
    TaskBuilder_new frozen_clock uuid_oracle (js "u1") empty_world
    = Returns this w' /\
    heap w' !! task this = Some o /\
    Task.status o = Some (js "TODO") /\
    Task.priority o = Some (js "MEDIUM") /\
    Task.creatorId o = Some (js "u1") /\
    Task.createdAt o = Task.updatedAt o.
Proof.
  split; [reflexivity|].
  destruct (TaskBuilder_new_draft frozen_clock uuid_oracle (js "u1") empty_world)
    as (this & w' & o & E & Ho & Hs & Hp & Hc & _ & _ & Heq).
  exists this, w', o. repeat (split; [assumption|]).
  apply Heq. reflexivity.
Defined.

(** An update that carries an [updatedAt] of its own, the epoch. *)
Lemma update_sets_updatedAt_now_witness :
  heap example_world !! 0%nat = Some example_task /\
  exists w' o',
    update ticking_clock 0
      (updatedAt_only (Some 0))
      example_world = Returns tt w' /\
    heap w' !! 0%nat = Some o' /\
    Task.updatedAt o' = Some (Some (ticking_clock (ticks example_world))).
Proof.
  assert (Ho : heap example_world !! 0%nat = Some example_task)
    by reflexivity.
  split; [exact Ho|].
  exact (update_sets_updatedAt_now ticking_clock 0 _ example_world
           example_task Ho).
Defined.

(** C9, as stated, fails twice over.  When the clock is set back
    between the two readings of the constructor, a task that [build]
    returns has [updatedAt] before [createdAt]; and with a clock that
    never goes back, an update that carries a later [createdAt] leaves
    the entity with [updatedAt] before [createdAt]. *)
Lemma updatedAt_before_createdAt :
  (exists t w o,
     (b <- TaskBuilder_new receding_clock uuid_oracle (js "u1") ;;
      withTitle b (js "Ship release") ;;;
      build b) empty_world = Returns t w /\
     heap w !! t = Some o /\
     ~ Date_le (Task.createdAt o) (Task.updatedAt o)) /\
  (exists t e w o,
     build_entity ticking_clock uuid_oracle (js "u1")
       [WithTitle (js "Ship release")]
       [status_and_createdAt DONE (Some 1800000000000)]
       empty_world = Returns (t, e) w /\
     heap w !! e = Some o /\
     ~ Date_le (Task.createdAt o) (Task.updatedAt o)).
Proof.
  split.
  - do 3 eexists.
    split; [vm_compute; reflexivity|].
    split; [vm_compute; reflexivity|].
    unfold Date_le. simpl. lia.
  - do 4 eexists.
    split; [vm_compute; reflexivity|].
    split; [vm_compute; reflexivity|].
    unfold Date_le. simpl. lia.
Qed.

(** A program that makes a builder, sets a title, is refused a due date
    in the past, builds, wraps the task and marks the entity DONE. *)
Lemma updatedAt_ge_createdAt_witness :
  monotone_clock ticking_clock /\
  Forall no_createdAt_key
    [New (js "u1");
     Call (mkTaskBuilder 0) (WithTitle (js "Ship release"));
     Call (mkTaskBuilder 0) (WithDueDate (Some 0));
     Build (mkTaskBuilder 0);
     NewEntity 0;
     Update 1 (status_only DONE)] /\
  exists w o,
    reaches ticking_clock uuid_oracle
      [New (js "u1");
       Call (mkTaskBuilder 0) (WithTitle (js "Ship release"));
       Call (mkTaskBuilder 0) (WithDueDate (Some 0));
       Build (mkTaskBuilder 0);
       NewEntity 0;
       Update 1 (status_only DONE)] w /\
    heap w !! 1%nat = Some o /\
    Date_le (Task.createdAt o) (Task.updatedAt o).
Proof.
  split; [exact ticking_clock_monotone|].
  assert (Hkeys : Forall no_createdAt_key
                    [New (js "u1");
                     Call (mkTaskBuilder 0) (WithTitle (js "Ship release"));
                     Call (mkTaskBuilder 0) (WithDueDate (Some 0));
                     Build (mkTaskBuilder 0);
                     NewEntity 0;
                     Update 1 (status_only DONE)]).
  { repeat constructor. }
  split; [exact Hkeys|].
  assert (Hr : exists w,
             after (run_ops ticking_clock uuid_oracle
                      [New (js "u1");
                       Call (mkTaskBuilder 0) (WithTitle (js "Ship release"));
                       Call (mkTaskBuilder 0) (WithDueDate (Some 0));
                       Build (mkTaskBuilder 0);
                       NewEntity 0;
                       Update 1 (status_only DONE)]
                      empty_world) = Some w /\
             exists o, heap w !! 1%nat = Some o).
  { eexists. split; [vm_compute; reflexivity|].
    eexists. vm_compute. reflexivity. }
  destruct Hr as (w & Hw & o & Ho).
  exists w, o.
  assert (Hreach : reaches ticking_clock uuid_oracle
                     [New (js "u1");
                      Call (mkTaskBuilder 0) (WithTitle (js "Ship release"));
                      Call (mkTaskBuilder 0) (WithDueDate (Some 0));
                      Build (mkTaskBuilder 0);
                      NewEntity 0;
                      Update 1 (status_only DONE)] w).
  { exists 0%nat, 0%nat. exact Hw. }
  split; [exact Hreach|]. split; [exact Ho|].
  exact (updatedAt_ge_createdAt ticking_clock uuid_oracle
           ticking_clock_monotone _ w 1%nat o Hkeys Hreach Ho).
Defined.

(** ** The further properties at concrete inputs *)

Lemma uuid_oracle_unique : unique_ids uuid_oracle.
Proof.
  intros i j E. unfold uuid_oracle in E.
  apply app_inv_head in E. injection E as E. lia.
Qed.

(** The empty description is a valid argument. *)
Lemma call_returns_iff_witness :
  heap example_world !! task (mkTaskBuilder 0) = Some example_task /\
  exists b w',
    call frozen_clock (mkTaskBuilder 0) (WithDescription []) example_world
    = Returns b w'.
Proof.
  assert (Ho : heap example_world !! task (mkTaskBuilder 0) = Some example_task)
    by reflexivity.
  split; [exact Ho|].
  destruct (call_returns_iff frozen_clock (mkTaskBuilder 0)
              (WithDescription []) example_world example_task Ho)
    as [[_ H] _].
  apply H. simpl. lia.
Defined.

(** Setting the assignee of the example task. *)
Lemma with_changes_only_its_field_witness :
  exists w',
    call ticking_clock (mkTaskBuilder 0) (WithAssignee (js "u2")) example_world
    = Returns (mkTaskBuilder 0) w' /\
    exists o o',
      heap example_world !! 0%nat = Some o /\
      heap w' !! 0%nat = Some o' /\
      Task.assigneeId o' = Some (js "u2") /\
      unchanged_outside F_assigneeId o o'.
Proof.
  assert (E : exists w',
             call ticking_clock (mkTaskBuilder 0) (WithAssignee (js "u2"))
               example_world = Returns (mkTaskBuilder 0) w')
    by (eexists; vm_compute; reflexivity).
  destruct E as [w' E]. exists w'. split; [exact E|].
  exact (proj2 (proj2 (with_changes_only_its_field ticking_clock
                         (mkTaskBuilder 0) (WithAssignee (js "u2"))
                         example_world (mkTaskBuilder 0) w' E))).
Defined.

(** A title and a priority, in the two orders. *)
Lemma with_calls_commute_witness :
  heap example_world !! task (mkTaskBuilder 0) = Some example_task /\
  field_of (WithTitle (js "Ship")) <> field_of (WithPriority (js "LOW")) /\
  valid_arguments frozen_clock (ticks example_world)
    [WithTitle (js "Ship"); WithPriority (js "LOW")] /\
  valid_arguments frozen_clock (ticks example_world)
    [WithPriority (js "LOW"); WithTitle (js "Ship")] /\
  chain frozen_clock (mkTaskBuilder 0)
    [WithTitle (js "Ship"); WithPriority (js "LOW")] example_world
  = chain frozen_clock (mkTaskBuilder 0)
      [WithPriority (js "LOW"); WithTitle (js "Ship")] example_world.
Proof.
  assert (Ho : heap example_world !! task (mkTaskBuilder 0) = Some example_task)
    by reflexivity.
  assert (Hne : field_of (WithTitle (js "Ship"))
                <> field_of (WithPriority (js "LOW"))) by discriminate.
  assert (Ht : ~ invalid_argument (frozen_clock 2) (WithTitle (js "Ship"))).
  { simpl. intros [H|H]; [discriminate H|lia]. }
  assert (Hp : ~ invalid_argument (frozen_clock 2) (WithPriority (js "LOW"))).
  { simpl. intros H. apply H. left. reflexivity. }
  assert (H12 : valid_arguments frozen_clock (ticks example_world)
                  [WithTitle (js "Ship"); WithPriority (js "LOW")]).
  { split; [exact Ht|]. split; [exact Hp|exact I]. }
  assert (H21 : valid_arguments frozen_clock (ticks example_world)
                  [WithPriority (js "LOW"); WithTitle (js "Ship")]).
  { split; [exact Hp|]. split; [exact Ht|exact I]. }
  split; [exact Ho|]. split; [exact Hne|]. split; [exact H12|].
  split; [exact H21|].
  exact (proj1 (with_calls_commute frozen_clock (mkTaskBuilder 0) _ _
                  example_world example_task Ho Hne H12 H21)).
Defined.

(** Tags replaced by the empty array. *)
Lemma with_call_overwrites_witness :
  heap example_world !! task (mkTaskBuilder 0) = Some example_task /\
  valid_arguments frozen_clock (ticks example_world)
    [WithTags [Tag.mk (js "1") (js "ok") None]; WithTags []] /\
  exists w',
    chain frozen_clock (mkTaskBuilder 0)
      [WithTags [Tag.mk (js "1") (js "ok") None]; WithTags []] example_world
    = Returns (mkTaskBuilder 0) w' /\
    heap w' = <[0%nat := Task.set_tags (Some []) example_task]>
                (heap example_world).
Proof.
  assert (Ho : heap example_world !! task (mkTaskBuilder 0) = Some example_task)
    by reflexivity.
  assert (Hv : valid_arguments frozen_clock (ticks example_world)
                 [WithTags [Tag.mk (js "1") (js "ok") None]; WithTags []]).
  { split; [|split; [|exact I]]; simpl.
    - intros H. apply Exists_cons in H as [H|H].
      + apply H. unfold tag_ok. simpl.
        split; [discriminate|]. split; [discriminate|lia].
      + now apply Exists_nil in H.
    - intros H. now apply Exists_nil in H. }
  split; [exact Ho|]. split; [exact Hv|].
  exact (with_call_overwrites frozen_clock (mkTaskBuilder 0)
           (WithTags [Tag.mk (js "1") (js "ok") None]) (WithTags [])
           example_world example_task Ho eq_refl Hv).
Defined.

(** A tag without id between an acceptable tag and a tag whose name is
    too long. *)
Lemma validateTags_first_failure_witness :
  Forall tag_ok [Tag.mk (js "1") (js "ok") None] /\
  ~ tag_ok (Tag.mk [] (js "x") None) /\
  validateTags
    ([Tag.mk (js "1") (js "ok") None]
     ++ Tag.mk [] (js "x") None :: [Tag.mk (js "3") (repeat 120%N 51) None])
    example_world
  = validateTag (Tag.mk [] (js "x") None) example_world.
Proof.
  assert (Hg : Forall tag_ok [Tag.mk (js "1") (js "ok") None]).
  { constructor; [|constructor]. unfold tag_ok. simpl.
    split; [discriminate|]. split; [discriminate|lia]. }
  assert (Hb : ~ tag_ok (Tag.mk [] (js "x") None)).
  { intros (H & _). now apply H. }
  split; [exact Hg|]. split; [exact Hb|].
  exact (proj1 (validateTags_first_failure _ _ _ example_world Hg Hb)).
Defined.

(** A title of 101 spaces is reported as empty. *)
Lemma withTitle_messages_witness :
  trim (repeat 32%N 101) = [] /\
  withTitle (mkTaskBuilder 0) (repeat 32%N 101) example_world
  = Throws (TaskValidationError "Title cannot be empty") example_world.
Proof.
  assert (E : trim (repeat 32%N 101) = []) by (vm_compute; reflexivity).
  split; [exact E|].
  exact (proj1 (withTitle_messages (mkTaskBuilder 0) (repeat 32%N 101)
                  example_world) E).
Defined.

(** A due date that is the clock reading of the call. *)
Lemma withDueDate_cases_witness :
  heap example_world !! task (mkTaskBuilder 0) = Some example_task /\
  withDueDate frozen_clock (mkTaskBuilder 0) (Some (frozen_clock 2))
    example_world
  = Returns (mkTaskBuilder 0)
      (mkWorld (<[0%nat := Task.set_dueDate (Some (Some (frozen_clock 2)))
                             example_task]> (heap example_world))
               3 1).
Proof.
  assert (Ho : heap example_world !! task (mkTaskBuilder 0) = Some example_task)
    by reflexivity.
  split; [exact Ho|].
  exact (withDueDate_cases frozen_clock (mkTaskBuilder 0)
           (Some (frozen_clock 2)) example_world example_task Ho).
Defined.

(** A builder given a title, refused a priority, then built. *)
Lemma built_task_origin_witness :
  exists t w' o,
    (b <- TaskBuilder_new ticking_clock uuid_oracle (js "u1") ;;
     attempts ticking_clock b
       [WithTitle (js "Ship release"); WithPriority (js "bogus")] ;;;
     build b) empty_world = Returns t w' /\
    heap w' !! t = Some o /\
    Task.status o = Some (TaskStatus_value TODO) /\
    Task.updatedAt o = Some (Some (ticking_clock 1)).
Proof.
  assert (E : exists t w',
             (b <- TaskBuilder_new ticking_clock uuid_oracle (js "u1") ;;
              attempts ticking_clock b
                [WithTitle (js "Ship release"); WithPriority (js "bogus")] ;;;
              build b) empty_world = Returns t w')
    by (do 2 eexists; vm_compute; reflexivity).
  destruct E as (t & w' & E).
  destruct (built_task_origin ticking_clock uuid_oracle (js "u1") _
              empty_world t w' E)
    as (o & Ho & Hs & _ & _ & _ & Hu).
  exists t, w', o. split; [exact E|]. split; [exact Ho|].
  split; [exact Hs|exact Hu].
Defined.

(** The end-to-end run: creator "u1", title "Ship release". *)
Lemma build_after_title_witness :
  js "u1" <> [] /\
  ~ (trim (js "Ship release") = [] \/
     (100 < length (js "Ship release"))%nat) /\
  exists t w2 o,
    (b <- TaskBuilder_new frozen_clock uuid_oracle (js "u1") ;;
     try_catch (build b) ;;;
     withTitle b (js "Ship release") ;;;
     build b) empty_world = Returns t w2 /\
    heap w2 !! t = Some o /\
    Task.title o = Some (js "Ship release").
Proof.
  assert (Hc : js "u1" <> []) by discriminate.
  assert (Hv : ~ (trim (js "Ship release") = [] \/
                  (100 < length (js "Ship release"))%nat)).
  { intros [H|H]; [discriminate H|simpl in H; lia]. }
  split; [exact Hc|]. split; [exact Hv|].
  exact (proj2 (build_after_title frozen_clock uuid_oracle (js "u1")
                  (js "Ship release") empty_world Hc Hv)).
Defined.

(** A second builder made while the example draft exists. *)
Lemma builders_are_independent_witness :
  heap example_world !! task (mkTaskBuilder 0) = Some example_task /\
  exists b w',
    (b <- TaskBuilder_new frozen_clock uuid_oracle (js "u2") ;;
     attempts frozen_clock b [WithTitle (js "Other")] ;;; ret b) example_world
    = Returns b w' /\
    task b <> task (mkTaskBuilder 0) /\
    heap w' !! task (mkTaskBuilder 0) = Some example_task.
Proof.
  assert (Ho : heap example_world !! task (mkTaskBuilder 0) = Some example_task)
    by reflexivity.
  split; [exact Ho|].
  exact (builders_are_independent frozen_clock uuid_oracle (mkTaskBuilder 0)
           example_task (js "u2") [WithTitle (js "Other")] example_world Ho).
Defined.

(** The example task renamed through its builder and wrapped; the
    entity is updated with a [createdAt] of its own, the task itself
    with a status. *)
Lemma interface_keeps_identity_witness :
  Forall (keeps_identity_of 0)
    [Call (mkTaskBuilder 0) (WithTitle (js "Renamed"));
     NewEntity 0;
     Update 1 (status_and_createdAt DONE (Some 0));
     Update 0 (status_only DONE)] /\
  exists w',
    after (run_ops ticking_clock uuid_oracle
             [Call (mkTaskBuilder 0) (WithTitle (js "Renamed"));
              NewEntity 0;
              Update 1 (status_and_createdAt DONE (Some 0));
              Update 0 (status_only DONE)] example_world) = Some w' /\
    heap example_world !! 0%nat = Some example_task /\
    exists o', heap w' !! 0%nat = Some o' /\ same_identity example_task o'.
Proof.
  assert (Hk : Forall (keeps_identity_of 0)
                 [Call (mkTaskBuilder 0) (WithTitle (js "Renamed"));
                  NewEntity 0;
                  Update 1 (status_and_createdAt DONE (Some 0));
                  Update 0 (status_only DONE)]).
  { constructor; [exact I|]. constructor; [exact I|].
    constructor; [left; discriminate|].
    constructor; [right; now repeat split|constructor]. }
  split; [exact Hk|].
  assert (E : exists w',
             after (run_ops ticking_clock uuid_oracle
                      [Call (mkTaskBuilder 0) (WithTitle (js "Renamed"));
                       NewEntity 0;
                       Update 1 (status_and_createdAt DONE (Some 0));
                       Update 0 (status_only DONE)] example_world) = Some w')
    by (eexists; vm_compute; reflexivity).
  destruct E as [w' E].
  assert (Ho : heap example_world !! 0%nat = Some example_task)
    by reflexivity.
  exists w'. split; [exact E|]. split; [exact Ho|].
  exact (interface_keeps_identity ticking_clock uuid_oracle _ example_world
           w' 0%nat example_task Hk E Ho).
Defined.

(** Two constructions; between them the first builder is given a title
    and builds, and the task is wrapped in an entity that is updated
    with another id. *)
Lemma constructions_have_distinct_ids_witness :
  unique_ids uuid_oracle /\
  exists b1 w1 w2 b2 w3,
    TaskBuilder_new frozen_clock uuid_oracle (js "u1") empty_world
    = Returns b1 w1 /\
    Forall (keeps_identity_of (task b1))
      [Call (mkTaskBuilder 0) (WithTitle (js "A"));
       Build (mkTaskBuilder 0);
       NewEntity 0;
       Update 1 (mkUpdates (Some (Some (TaskId.mk (js "task-1")))) None None
                           None None None None None None None None)] /\
    after (run_ops frozen_clock uuid_oracle
             [Call (mkTaskBuilder 0) (WithTitle (js "A"));
              Build (mkTaskBuilder 0);
              NewEntity 0;
              Update 1 (mkUpdates (Some (Some (TaskId.mk (js "task-1")))) None
                                  None None None None None None None None
                                  None)] w1) = Some w2 /\
    TaskBuilder_new frozen_clock uuid_oracle (js "u1") w2 = Returns b2 w3 /\
    exists o1 o2,
      heap w3 !! task b1 = Some o1 /\
      heap w3 !! task b2 = Some o2 /\
      task b1 <> task b2 /\
      Task.id o1 <> Task.id o2.
Proof.
  split; [exact uuid_oracle_unique|].
  assert (E1 : TaskBuilder_new frozen_clock uuid_oracle (js "u1") empty_world
               = Returns (mkTaskBuilder 0)
                   (mkWorld {[ 0%nat :=
                       Task.mk (Some (TaskId.mk (js "task-0"))) None None
                         (Some (js "TODO")) (Some (js "MEDIUM")) None None
                         (Some (Some 1700000000000))
                         (Some (Some 1700000000000)) None
                         (Some (js "u1")) ]} 2 1))
    by (vm_compute; reflexivity).
  assert (Hk : Forall (keeps_identity_of (task (mkTaskBuilder 0)))
                 [Call (mkTaskBuilder 0) (WithTitle (js "A"));
                  Build (mkTaskBuilder 0);
                  NewEntity 0;
                  Update 1 (mkUpdates (Some (Some (TaskId.mk (js "task-1"))))
                              None None None None None None None None None
                              None)]).
  { constructor; [exact I|]. constructor; [exact I|].
    constructor; [exact I|].
    constructor; [left; discriminate|constructor]. }
  assert (E2 : exists w2,
             after (run_ops frozen_clock uuid_oracle
                      [Call (mkTaskBuilder 0) (WithTitle (js "A"));
                       Build (mkTaskBuilder 0);
                       NewEntity 0;
                       Update 1 (mkUpdates
                                   (Some (Some (TaskId.mk (js "task-1"))))
                                   None None None None None None None None
                                   None None)]
                      (mkWorld {[ 0%nat :=
                          Task.mk (Some (TaskId.mk (js "task-0"))) None None
                            (Some (js "TODO")) (Some (js "MEDIUM")) None None
                            (Some (Some 1700000000000))
                            (Some (Some 1700000000000)) None
                            (Some (js "u1")) ]} 2 1)) = Some w2)
    by (eexists; vm_compute; reflexivity).
  destruct E2 as (w2 & E2).
  assert (E3 : exists b2 w3,
             TaskBuilder_new frozen_clock uuid_oracle (js "u1") w2
             = Returns b2 w3)
    by (do 2 eexists; apply TaskBuilder_new_returns).
  destruct E3 as (b2 & w3 & E3).
  eexists (mkTaskBuilder 0), _, w2, b2, w3.
  split; [exact E1|]. split; [exact Hk|]. split; [exact E2|].
  split; [exact E3|].
  exact (constructions_have_distinct_ids frozen_clock uuid_oracle _ _ _ _ _ _ _
           _ _ uuid_oracle_unique E1 Hk E2 E3).
Defined.

(** The example task wrapped in an entity. *)
Lemma TaskEntity_is_a_copy_witness :
  heap example_world !! 0%nat = Some example_task /\
  exists e w1,
    TaskEntity_new 0 example_world = Returns e w1 /\
    e <> 0%nat /\
    heap w1 !! e = Some example_task /\
    forall us, exists w2,
      update_all frozen_clock e us w1 = Returns tt w2 /\
      heap w2 !! 0%nat = Some example_task.
Proof.
  assert (Ho : heap example_world !! 0%nat = Some example_task)
    by reflexivity.
  split; [exact Ho|].
  destruct (TaskEntity_is_a_copy frozen_clock 0 example_world example_task Ho)
    as (e & w1 & E & Hne & He & _ & Hu & _).
  exists e, w1. split; [exact E|]. split; [exact Hne|].
  split; [exact He|exact Hu].
Defined.


(** An update that carries the status with the value undefined and,
    not being a literal, a creator id. *)
Lemma update_writes_carried_keys_witness :
  heap example_world !! 0%nat = Some example_task /\
  exists w' o',
    update frozen_clock 0
      (mkUpdates None None None (Some None) None None None None None None
                 (Some (Some (js "u2"))))
      example_world = Returns tt w' /\
    heap w' !! 0%nat = Some o' /\
    Task.status o' = None /\
    Task.creatorId o' = Some (js "u2") /\
    Task.priority o' = Task.priority example_task.
Proof.
  assert (Ho : heap example_world !! 0%nat = Some example_task)
    by reflexivity.
  split; [exact Ho|].
  destruct (update_writes_carried_keys frozen_clock 0
              (mkUpdates None None None (Some None) None None None None None
                         None (Some (Some (js "u2"))))
              example_world example_task Ho)
    as (w' & o' & E & Ho' & _ & _ & _ & Hs & Hp & _ & _ & _ & _ & _ & Hcr).
  exists w', o'. split; [exact E|]. split; [exact Ho'|].
  split; [exact Hs|]. split; [exact Hcr|exact Hp].
Defined.


(** Two tasks typed and submitted after mounting. *)
Lemma TaskList_keys_distinct_witness :
  unique_ids uuid_oracle /\
  exists s' w',
    dispatch_all frozen_clock uuid_oracle
      [ChangeTitle (js "Ship release"); ChangePriority (js "HIGH");
       Submit; ChangeTitle (js "Write notes"); Submit]
      Container_initial empty_world = Returns s' w' /\
    exists items,
      TaskList (tasks s') = Some items /\
      NoDup (map item_key items) /\
      length items = 2%nat.
Proof.
  split; [exact uuid_oracle_unique|].
  assert (E : exists s' w',
             dispatch_all frozen_clock uuid_oracle
               [ChangeTitle (js "Ship release"); ChangePriority (js "HIGH");
                Submit; ChangeTitle (js "Write notes"); Submit]
               Container_initial empty_world = Returns s' w')
    by (do 2 eexists; vm_compute; reflexivity).
  destruct E as (s' & w' & E).
  exists s', w'. split; [exact E|].
  exact (TaskList_keys_distinct frozen_clock uuid_oracle _ empty_world s' w'
           uuid_oracle_unique E).
Defined.
